(** * cls_generator.py: the Clip Studio Paint colour-set (.cls) codec

    A shallow embedding of [CLSColor], [CLSGenerator] and [load_cls], and the
    properties of the binary codec.  Python integers are [Z], [bytes] objects
    are [list byte], [str] objects are lists of code points, exceptions are an
    explicit error type, and the two file objects ([open(.., 'wb')] and
    [open(.., 'rb')]) are states threaded through a small state-and-exception
    monad. *)

From Stdlib.Strings Require Import String Ascii Byte.
From Stdlib Require Import ZArith List Lia Bool.
Import ListNotations.
Open Scope Z_scope.

(** ** Python primitives used by the module *)

Module Py.

(** The exceptions that the module and the primitives it calls can raise. *)
Inductive exn : Type :=
| ValueError (msg : string)
| StructError
| UnicodeEncodeError.

Inductive result (A : Type) : Type :=
| Ok (a : A)
| Raise (e : exn).
Arguments Ok {A} a.
Arguments Raise {A} e.

(** Computations over a mutable object of type [S] that may raise.  The state
    reached when the exception is raised is kept. *)
Definition M (S A : Type) : Type := S -> result A * S.

Definition ret {S A} (a : A) : M S A := fun s => (Ok a, s).

Definition bind {S A B} (m : M S A) (k : A -> M S B) : M S B :=
  fun s =>
    match m s with
    | (Ok a, s') => k a s'
    | (Raise e, s') => (Raise e, s')
    end.

Definition raise {S A} (e : exn) : M S A := fun s => (Raise e, s).

(** A pure primitive that may raise, used inside a computation. *)
Definition lift {S A} (r : result A) : M S A := fun s => (r, s).

Definition len {A} (l : list A) : Z := Z.of_nat (length l).

(** *** Bytes *)

Definition bytes : Type := list byte.

Definition byte_to_Z (b : byte) : Z := Z.of_N (Byte.to_N b).

Definition Z_to_byte (z : Z) : byte :=
  match Byte.of_N (Z.to_N z) with
  | Some b => b
  | None => x00
  end.

(** *** struct.pack / struct.unpack

    Every format raises [struct.error] when an argument is out of the range
    of its field, and when the buffer to unpack has not exactly the size of
    the format. *)

(** The little-endian bytes of a 16-bit and of a 32-bit unsigned integer. *)
Definition le16 (v : Z) : bytes :=
  [Z_to_byte (v mod 256); Z_to_byte (v / 256)].

Definition le32 (v : Z) : bytes :=
  [Z_to_byte (v mod 256);
   Z_to_byte (v / 256 mod 256);
   Z_to_byte (v / 65536 mod 256);
   Z_to_byte (v / 16777216)].

(** [struct.pack('<H', v)] *)
Definition pack_H (v : Z) : result bytes :=
  if (0 <=? v) && (v <=? 65535) then Ok (le16 v) else Raise StructError.

(** [struct.pack('<I', v)] *)
Definition pack_I (v : Z) : result bytes :=
  if (0 <=? v) && (v <=? 4294967295) then Ok (le32 v) else Raise StructError.

Definition is_ubyte (v : Z) : bool := (0 <=? v) && (v <=? 255).

(** [struct.pack('BBBB', x, y, z, w)] *)
Definition pack_BBBB (x y z w : Z) : result bytes :=
  if is_ubyte x && is_ubyte y && is_ubyte z && is_ubyte w
  then Ok [Z_to_byte x; Z_to_byte y; Z_to_byte z; Z_to_byte w]
  else Raise StructError.

(** [struct.unpack('<H', data)[0]] *)
Definition unpack_H (data : bytes) : result Z :=
  match data with
  | [b0; b1] => Ok (byte_to_Z b0 + 256 * byte_to_Z b1)
  | _ => Raise StructError
  end.

(** [struct.unpack('<I', data)[0]] *)
Definition unpack_I (data : bytes) : result Z :=
  match data with
  | [b0; b1; b2; b3] =>
      Ok (byte_to_Z b0 + 256 * byte_to_Z b1
          + 65536 * byte_to_Z b2 + 16777216 * byte_to_Z b3)
  | _ => Raise StructError
  end.

(** [struct.unpack('BBBB', data)] *)
Definition unpack_BBBB (data : bytes) : result (Z * Z * Z * Z) :=
  match data with
  | [b0; b1; b2; b3] =>
      Ok (byte_to_Z b0, byte_to_Z b1, byte_to_Z b2, byte_to_Z b3)
  | _ => Raise StructError
  end.

(** *** str and the text codecs

    A [str] is a sequence of code points, each in [0, 0x10FFFF]; lone
    surrogates (0xD800..0xDFFF) are allowed in a [str]. *)

Definition str : Type := list Z.

Definition is_codepoint (c : Z) : bool := (0 <=? c) && (c <=? 1114111).

Definition is_str (s : str) : bool := forallb is_codepoint s.

Definition is_surrogate (c : Z) : bool := (55296 <=? c) && (c <=? 57343).

(** A literal whose characters are all ASCII. *)
Fixpoint str_of_string (s : string) : str :=
  match s with
  | EmptyString => []
  | String c s' => Z.of_N (N_of_ascii c) :: str_of_string s'
  end.

(** [s.encode('ascii', errors='replace')]: a character outside ASCII becomes
    the question mark, so that the call never raises. *)
Definition ascii_encode_replace (s : str) : bytes :=
  map (fun c => if c <? 128 then Z_to_byte c else x3f) s.

(** [data.decode('ascii', errors='replace')]: a byte outside ASCII becomes
    U+FFFD. *)
Definition ascii_decode_replace (data : bytes) : str :=
  map (fun b => if byte_to_Z b <? 128 then byte_to_Z b else 65533) data.

(** The UTF-8 encoding of one code point; a surrogate is refused. *)
Definition utf8_encode_cp (c : Z) : result bytes :=
  if c <? 128 then Ok [Z_to_byte c]
  else if c <? 2048 then
    Ok [Z_to_byte (192 + c / 64); Z_to_byte (128 + c mod 64)]
  else if c <? 65536 then
    if is_surrogate c then Raise UnicodeEncodeError
    else Ok [Z_to_byte (224 + c / 4096);
             Z_to_byte (128 + c / 64 mod 64);
             Z_to_byte (128 + c mod 64)]
  else
    Ok [Z_to_byte (240 + c / 262144);
        Z_to_byte (128 + c / 4096 mod 64);
        Z_to_byte (128 + c / 64 mod 64);
        Z_to_byte (128 + c mod 64)].

(** [s.encode('utf-8')] *)
Fixpoint utf8_encode (s : str) : result bytes :=
  match s with
  | [] => Ok []
  | c :: s' =>
      match utf8_encode_cp c with
      | Raise e => Raise e
      | Ok bs =>
          match utf8_encode s' with
          | Raise e => Raise e
          | Ok rest => Ok (bs ++ rest)
          end
      end
  end.

Definition is_cont (z : Z) : bool := (128 <=? z) && (z <? 192).

(** [data.decode('utf-8', errors='replace')].  An ill-formed sequence is
    replaced by one U+FFFD for its longest prefix that could start a
    well-formed sequence (one byte when there is none), and decoding resumes
    after that prefix; the call never raises. *)
Fixpoint utf8_decode_replace (data : bytes) : str :=
  match data with
  | [] => []
  | b0 :: t1 =>
      let z0 := byte_to_Z b0 in
      if z0 <? 128 then z0 :: utf8_decode_replace t1
      else if z0 <? 194 then 65533 :: utf8_decode_replace t1
      else if z0 <? 224 then
        match t1 with
        | [] => [65533]
        | b1 :: t2 =>
            let z1 := byte_to_Z b1 in
            if is_cont z1
            then (z0 - 192) * 64 + (z1 - 128) :: utf8_decode_replace t2
            else 65533 :: utf8_decode_replace t1
        end
      else if z0 <? 240 then
        match t1 with
        | [] => [65533]
        | b1 :: t2 =>
            let z1 := byte_to_Z b1 in
            if negb (is_cont z1)
               || (if z1 <? 160 then z0 =? 224 else z0 =? 237)
            then 65533 :: utf8_decode_replace t1
            else
              match t2 with
              | [] => [65533]
              | b2 :: t3 =>
                  let z2 := byte_to_Z b2 in
                  if is_cont z2
                  then (z0 - 224) * 4096 + (z1 - 128) * 64 + (z2 - 128)
                       :: utf8_decode_replace t3
                  else 65533 :: utf8_decode_replace t2
              end
        end
      else if z0 <? 245 then
        match t1 with
        | [] => [65533]
        | b1 :: t2 =>
            let z1 := byte_to_Z b1 in
            if negb (is_cont z1)
               || (if z1 <? 144 then z0 =? 240 else z0 =? 244)
            then 65533 :: utf8_decode_replace t1
            else
              match t2 with
              | [] => [65533]
              | b2 :: t3 =>
                  let z2 := byte_to_Z b2 in
                  if negb (is_cont z2)
                  then 65533 :: utf8_decode_replace t2
                  else
                    match t3 with
                    | [] => [65533]
                    | b3 :: t4 =>
                        let z3 := byte_to_Z b3 in
                        if is_cont z3
                        then (z0 - 240) * 262144 + (z1 - 128) * 4096
                             + (z2 - 128) * 64 + (z3 - 128)
                             :: utf8_decode_replace t4
                        else 65533 :: utf8_decode_replace t3
                    end
              end
        end
      else 65533 :: utf8_decode_replace t1
  end.

(** [s.lstrip('#')]: every leading number sign is removed. *)
Fixpoint lstrip_hash (s : str) : str :=
  match s with
  | c :: s' => if c =? 35 then lstrip_hash s' else s
  | [] => []
  end.

(** [s[i:j]] for literal bounds [0 <= i <= j]. *)
Definition slice (s : str) (i j : nat) : str := firstn (j - i) (skipn i s).

(** The value of one hexadecimal digit. *)
Definition hex_digit (c : Z) : option Z :=
  if (48 <=? c) && (c <=? 57) then Some (c - 48)
  else if (65 <=? c) && (c <=? 70) then Some (c - 55)
  else if (97 <=? c) && (c <=? 102) then Some (c - 87)
  else None.

Fixpoint hex_value (acc : Z) (s : str) : option Z :=
  match s with
  | [] => Some acc
  | c :: s' =>
      match hex_digit c with
      | Some d => hex_value (16 * acc + d) s'
      | None => None
      end
  end.

(** [int(s, 16)] on a text made of hexadecimal digits only.  The sign, the
    blanks, the prefix and the underscores that [int] also accepts are left
    out: such a text raises here.  The properties below hold for every
    function in the place of [int]; this one serves to run the methods. *)
Definition int_hex_digits (s : str) : result Z :=
  match s with
  | [] => Raise (ValueError "invalid literal for int() with base 16")
  | _ =>
      match hex_value 0 s with
      | Some v => Ok v
      | None => Raise (ValueError "invalid literal for int() with base 16")
      end
  end.

(** The character of a hexadecimal digit, in upper case. *)
Definition hex_upper_digit (d : Z) : Z := if d <? 10 then 48 + d else 55 + d.

(** The hexadecimal digits of [v >= 0] in front of [acc]; [fuel] bounds the
    number of digits ([hex_upper_value] below shows that the fuel given by
    [hex_upper] is enough). *)
Fixpoint hex_upper_fuel (fuel : nat) (v : Z) (acc : str) : str :=
  match fuel with
  | O => acc
  | S fuel' =>
      let acc' := hex_upper_digit (v mod 16) :: acc in
      if v / 16 =? 0 then acc' else hex_upper_fuel fuel' (v / 16) acc'
  end.

(** [format(v, 'X')] for [v >= 0]. *)
Definition hex_upper (v : Z) : str :=
  hex_upper_fuel (S (Z.to_nat (Z.log2 v))) v [].

(** [format(v, '02X')], the format spec of the f-string in [to_hex]: upper
    case hexadecimal digits, a minus sign for a negative number, and zeros
    after the sign up to a width of two characters. *)
Definition format_02X (v : Z) : str :=
  if v <? 0 then 45 :: hex_upper (- v)
  else
    match hex_upper v with
    | [d] => [48; d]
    | ds => ds
    end.

(** [a == b] on [bytes] objects. *)
Fixpoint bytes_eqb (x y : bytes) : bool :=
  match x, y with
  | [], [] => true
  | b :: x', c :: y' => Byte.eqb b c && bytes_eqb x' y'
  | _, _ => false
  end.

(** *** File objects

    A file opened with ['wb'] is the bytes written so far.  A file opened with
    ['rb'] is the bytes not read yet, together with the history of the calls
    of [read]: the size asked for and the size returned. *)

Definition wfile : Type := bytes.

Definition f_write (data : bytes) : M wfile unit :=
  fun f => (Ok tt, f ++ data).

Record rfile : Type := { unread : bytes; reads : list (nat * nat) }.

Definition open_rb (data : bytes) : rfile :=
  {| unread := data; reads := [] |}.

(** [f.read(n)], for the sizes [n >= 0] that the module asks for, returns
    the next [n] bytes, fewer at the end of the file, and never raises. *)
Definition f_read (n : Z) : M rfile bytes :=
  fun f =>
    let got := firstn (Z.to_nat n) (unread f) in
    (Ok got,
     {| unread := skipn (Z.to_nat n) (unread f);
        reads := reads f ++ [(Z.to_nat n, length got)] |}).

End Py.

Import Py.

Declare Scope py_scope.
Delimit Scope py_scope with py.
Notation "x <- m ;; k" := (bind m (fun x => k))
  (at level 61, m at next level, right associativity) : py_scope.
Notation "m ;;; k" := (bind m (fun _ => k))
  (at level 61, right associativity) : py_scope.
Open Scope py_scope.

(** ** The module *)

Module Cls.

(** *** class CLSColor *)

Record CLSColor : Type := mkCLSColor { r : Z; g : Z; b : Z; a : Z }.

(** [CLSColor.__init__] *)
Definition CLSColor_init (r g b a : Z) : CLSColor :=
  {| r := Z.max 0 (Z.min 255 r);
     g := Z.max 0 (Z.min 255 g);
     b := Z.max 0 (Z.min 255 b);
     a := Z.max 0 (Z.min 255 a) |}.

(** [CLSColor.to_hex] *)
Definition to_hex (self : CLSColor) : str :=
  35 :: format_02X (r self) ++ format_02X (g self) ++ format_02X (b self).

(** *** class CLSGenerator *)

Record CLSGenerator : Type :=
  mkCLSGenerator { name : str; colors : list CLSColor }.

(** [CLSGenerator.__init__] *)
Definition CLSGenerator_init (name : str) : CLSGenerator :=
  {| name := name; colors := [] |}.

(** [add_color] appends to [self.colors]; it cannot raise. *)
Definition add_color (r g b a : Z) (self : CLSGenerator) : CLSGenerator :=
  let color := CLSColor_init r g b a in
  {| name := name self; colors := colors self ++ [color] |}.

Section FromHex.

(** The built-in [int(s, 16)], which raises [ValueError] when [s] is not the
    text of an integer in base 16. *)
Variable int_base16 : str -> result Z.

Definition add_color_from_hex (hex_color : str) (a : Z)
  : M CLSGenerator unit :=
  let hex_color := lstrip_hash hex_color in
  if len hex_color =? 6 then
    r <- lift (int_base16 (slice hex_color 0 2)) ;;
    g <- lift (int_base16 (slice hex_color 2 4)) ;;
    b <- lift (int_base16 (slice hex_color 4 6)) ;;
    fun self => (Ok tt, add_color r g b a self)
  else if len hex_color =? 8 then
    r <- lift (int_base16 (slice hex_color 0 2)) ;;
    g <- lift (int_base16 (slice hex_color 2 4)) ;;
    b <- lift (int_base16 (slice hex_color 4 6)) ;;
    a <- lift (int_base16 (slice hex_color 6 8)) ;;
    fun self => (Ok tt, add_color r g b a self)
  else ret tt.

End FromHex.

(** [add_colors_from_list]: the alpha of [add_color] takes its default. *)
Fixpoint add_colors_from_list (colors : list (Z * Z * Z))
  (self : CLSGenerator) : CLSGenerator :=
  match colors with
  | [] => self
  | (r, g, b) :: rest => add_colors_from_list rest (add_color r g b 255 self)
  end.

Definition clear (self : CLSGenerator) : CLSGenerator :=
  {| name := name self; colors := [] |}.

(** [struct.pack(fmt, v)] followed by [f.write]. *)
Definition write_packed (packed : result bytes) : M wfile unit :=
  data <- lift packed ;; f_write data.

(** The loop of [save] over [self.colors]. *)
Fixpoint write_colors (cs : list CLSColor) : M wfile unit :=
  match cs with
  | [] => ret tt
  | color :: rest =>
      write_packed (pack_I 8) ;;;
      write_packed (pack_BBBB (r color) (g color) (b color) (a color)) ;;;
      write_packed (pack_I 0) ;;;
      write_colors rest
  end.

Definition SLCC : bytes := [x53; x4c; x43; x43].

(** [save], on the file that [open(filename, 'wb')] returns. *)
Definition save (self : CLSGenerator) : M wfile unit :=
  f_write SLCC ;;;
  write_packed (pack_H 256) ;;;
  let ascii_name := ascii_encode_replace (name self) in
  utf8_name <- lift (utf8_encode (name self)) ;;
  let header_length := 2 + len ascii_name + 4 + 2 + len utf8_name in
  write_packed (pack_I header_length) ;;;
  write_packed (pack_H (len ascii_name)) ;;;
  f_write ascii_name ;;;
  write_packed (pack_I 0) ;;;
  write_packed (pack_H (len utf8_name)) ;;;
  f_write utf8_name ;;;
  write_packed (pack_I 4) ;;;
  write_packed (pack_I (len (colors self))) ;;;
  let colors_data_length := len (colors self) * 12 in
  write_packed (pack_I colors_data_length) ;;;
  write_colors (colors self).

(** The bytes of the file that [save] leaves when it returns normally; the
    file is created empty. *)
Definition encode (self : CLSGenerator) : result bytes :=
  match save self [] with
  | (Ok _, f) => Ok f
  | (Raise e, _) => Raise e
  end.

(** [struct.unpack(fmt, f.read(n))] *)
Definition read_unpack {A} (n : Z) (unpack : bytes -> result A)
  : M rfile A :=
  data <- f_read n ;; lift (unpack data).

(** The loop of [load_cls] over [range(color_count)]. *)
Fixpoint read_colors (count : nat) (generator : CLSGenerator)
  : M rfile CLSGenerator :=
  match count with
  | O => ret generator
  | S count' =>
      block_len <- read_unpack 4 unpack_I ;;
      rgba <- read_unpack 4 unpack_BBBB ;;
      trailing_zero <- read_unpack 4 unpack_I ;;
      let '(r, g, b, a) := rgba in
      read_colors count' (add_color r g b a generator)
  end.

(** [load_cls], on the file that [open(filename, 'rb')] returns. *)
Definition load_cls_file : M rfile CLSGenerator :=
  sig <- f_read 4 ;;
  if negb (bytes_eqb sig SLCC)
  then raise (ValueError "Invalid .cls file: wrong signature")
  else
    version <- read_unpack 2 unpack_H ;;
    header_length <- read_unpack 4 unpack_I ;;
    ascii_name_len <- read_unpack 2 unpack_H ;;
    ascii_data <- f_read ascii_name_len ;;
    let ascii_name := ascii_decode_replace ascii_data in
    f_read 4 ;;;
    utf8_name_len <- read_unpack 2 unpack_H ;;
    utf8_data <- f_read utf8_name_len ;;
    let utf8_name := utf8_decode_replace utf8_data in
    let generator :=
      CLSGenerator_init
        (match utf8_name with [] => ascii_name | _ => utf8_name end) in
    channels <- read_unpack 4 unpack_I ;;
    color_count <- read_unpack 4 unpack_I ;;
    colors_data_len <- read_unpack 4 unpack_I ;;
    read_colors (Z.to_nat color_count) generator.

(** [load_cls] on a file whose content is [data]. *)
Definition load_cls (data : bytes) : result CLSGenerator :=
  fst (load_cls_file (open_rb data)).

End Cls.

Import Cls.

(** ** Vocabulary of the properties *)

(** The invariant of a colour: every channel is an unsigned byte. *)
Definition valid_color (c : CLSColor) : bool :=
  is_ubyte (r c) && is_ubyte (g c) && is_ubyte (b c) && is_ubyte (a c).

(** The invariant of a palette: every colour of its list is valid. *)
Definition valid_palette (p : CLSGenerator) : bool :=
  forallb valid_color (colors p).

(** What clamping a channel [v] to [out] means. *)
Definition clamps_to (v out : Z) : Prop :=
  0 <= out <= 255 /\
  (v < 0 -> out = 0) /\
  (255 < v -> out = 255) /\
  (0 <= v <= 255 -> out = v).

(** A name that the two 16-bit length fields of the header can hold: its
    UTF-8 encoding exists and has at most 65535 bytes. *)
Definition name_fits (s : str) : bool :=
  match utf8_encode s with
  | Ok u => len u <=? 65535
  | Raise _ => false
  end.

(** A call of [read] that returned fewer bytes than it was asked for. *)
Definition short_read (f : rfile) : bool :=
  existsb (fun '(asked, got) => (got <? asked)%nat) (reads f).

(** The bytes of the colour blocks of a list of colours. *)
Definition color_blocks (cs : list CLSColor) : bytes :=
  flat_map
    (fun c =>
       le32 8
       ++ [Z_to_byte (r c); Z_to_byte (g c); Z_to_byte (b c); Z_to_byte (a c)]
       ++ le32 0)
    cs.

(** The layout of a file: signature, version, header length, the two name
    fields around the reserved word, then channel count, colour count,
    length of the colours section and the section itself. *)
Definition layout (header_length : Z) (ascii_name utf8_name : bytes)
  (color_count section_length : Z) (section : bytes) : bytes :=
  SLCC ++ le16 256 ++ le32 header_length
  ++ le16 (len ascii_name) ++ ascii_name ++ le32 0
  ++ le16 (len utf8_name) ++ utf8_name
  ++ le32 4 ++ le32 color_count ++ le32 section_length ++ section.

(** The name that [load_cls] gives to the palette, from the two decoded
    name fields. *)
Definition preferred_name (utf8_name ascii_name : str) : str :=
  match utf8_name with
  | [] => ascii_name
  | _ => utf8_name
  end.

(** Once a call of [read] has come back short, the file is at its end. *)
Definition at_end_if_short (f : rfile) : Prop :=
  short_read f = true -> unread f = [].

(** A computation on the input file that, started after complete reads only,
    either returns with every call of [read] complete, or raises
    [struct.error]. *)
Definition strict {A} (m : M rfile A) : Prop :=
  forall f,
    at_end_if_short f -> short_read f = false ->
    at_end_if_short (snd (m f)) /\
    match fst (m f) with
    | Ok _ => short_read (snd (m f)) = false
    | Raise e => e = StructError
    end.

(** The same from any state: when a call of [read] came back short before
    the computation starts, it raises [struct.error]. *)
Definition checking {A} (m : M rfile A) : Prop :=
  forall f,
    at_end_if_short f ->
    at_end_if_short (snd (m f)) /\
    match fst (m f) with
    | Ok _ => short_read (snd (m f)) = false
    | Raise e => e = StructError
    end.

(** An unpacking function for a buffer of exactly [k] bytes. *)
Definition unpacks_exactly {A} (k : nat) (unpack : bytes -> result A) : Prop :=
  forall data,
    match unpack data with
    | Ok _ => length data = k
    | Raise e => e = StructError
    end.

(** The end of [load_cls_file], from the channel count on, for the palette
    that the header gave ([load_cls_file_header] below relates the two). *)
Definition load_colors_section (generator : CLSGenerator)
  : M rfile CLSGenerator :=
  channels <- read_unpack 4 unpack_I ;;
  color_count <- read_unpack 4 unpack_I ;;
  colors_data_len <- read_unpack 4 unpack_I ;;
  read_colors (Z.to_nat color_count) generator.

(** The input file with [ext] appended to its content. *)
Definition extend (f : rfile) (ext : bytes) : rfile :=
  {| unread := unread f ++ ext; reads := reads f |}.

(** A computation that returns the same on a longer file, when every call
    of [read] was complete. *)
Definition extensible {A} (m : M rfile A) : Prop :=
  forall f ext v f',
    m f = (Ok v, f') -> short_read f' = false ->
    m (extend f ext) = (Ok v, extend f' ext).

(** A computation that keeps the record of a short call of [read]. *)
Definition keeps_short {A} (m : M rfile A) : Prop :=
  forall f, short_read f = true -> short_read (snd (m f)) = true.

(** What [int(s, 16)] is on a text of two hexadecimal digits; the built-in
    agrees with it. *)
Definition reads_hex_pairs (int_base16 : str -> result Z) : Prop :=
  forall c d x y,
    hex_digit c = Some x -> hex_digit d = Some y ->
    int_base16 [c; d] = Ok (16 * x + y).

(** A colour block as it lies in a file: four bytes of block length, the
    four channels, four trailing bytes. *)
Definition raw_block : Type := bytes * (byte * byte * byte * byte) * bytes.

Definition raw_block_ok (blk : raw_block) : bool :=
  let '(block_len, _, trailing) := blk in
  (length block_len =? 4)%nat && (length trailing =? 4)%nat.

Definition raw_block_bytes (blk : raw_block) : bytes :=
  let '(block_len, (x, y, z, w), trailing) := blk in
  block_len ++ [x; y; z; w] ++ trailing.

Definition raw_block_color (blk : raw_block) : CLSColor :=
  let '(_, (x, y, z, w), _) := blk in
  {| r := byte_to_Z x; g := byte_to_Z y; b := byte_to_Z z;
     a := byte_to_Z w |}.

(** A code point that is a Unicode scalar value: in range and no
    surrogate. *)
Definition is_scalar (c : Z) : bool := is_codepoint c && negb (is_surrogate c).

(** ** Bytes and struct *)

(** [lia] on the divisions and remainders of the byte arithmetic. *)
Ltac Zify.zify_post_hook ::= Z.to_euclidean_division_equations.

Lemma byte_to_Z_range (x : byte) : 0 <= byte_to_Z x < 256.
Proof.
  unfold byte_to_Z. pose proof (Byte.to_N_bounded x) as H.
  lia.
Qed.

Lemma byte_to_Z_to_byte (z : Z) : 0 <= z < 256 -> byte_to_Z (Z_to_byte z) = z.
Proof.
  intros Hz. unfold byte_to_Z, Z_to_byte.
  destruct (Byte.of_N (Z.to_N z)) as [y|] eqn:E.
  - apply Byte.to_of_N in E. rewrite E. lia.
  - apply Byte.of_N_None_iff in E. lia.
Qed.

Lemma Z_to_byte_to_Z (x : byte) : Z_to_byte (byte_to_Z x) = x.
Proof.
  unfold byte_to_Z, Z_to_byte. rewrite N2Z.id, Byte.of_to_N. reflexivity.
Qed.

Lemma bytes_eqb_eq (x y : bytes) : bytes_eqb x y = true <-> x = y.
Proof.
  revert y. induction x as [|c x IH]; intros [|d y]; simpl;
    try (split; [discriminate | congruence]); try tauto.
  rewrite andb_true_iff, IH. split.
  - intros [Hc ->]. apply Byte.byte_dec_bl in Hc. now subst.
  - intros [= -> ->]. split; [now apply Byte.byte_dec_lb | reflexivity].
Qed.

Lemma len_app {A} (x y : list A) : len (x ++ y) = len x + len y.
Proof. unfold len. rewrite length_app. lia. Qed.

Lemma len_nonneg {A} (x : list A) : 0 <= len x.
Proof. unfold len. lia. Qed.

Lemma unpack_pack_H (v : Z) (data : bytes) :
  pack_H v = Ok data -> unpack_H data = Ok v.
Proof.
  unfold pack_H. destruct (_ && _) eqn:E; [|discriminate].
  intros [= <-]. apply andb_true_iff in E. destruct E as [E1 E2].
  apply Z.leb_le in E1, E2. unfold unpack_H, le16.
  rewrite !byte_to_Z_to_byte by lia. f_equal. lia.
Qed.

Lemma unpack_pack_I (v : Z) (data : bytes) :
  pack_I v = Ok data -> unpack_I data = Ok v.
Proof.
  unfold pack_I. destruct (_ && _) eqn:E; [|discriminate].
  intros [= <-]. apply andb_true_iff in E. destruct E as [E1 E2].
  apply Z.leb_le in E1, E2. unfold unpack_I, le32.
  rewrite !byte_to_Z_to_byte by lia. f_equal. lia.
Qed.

Lemma unpack_pack_BBBB (x y z w : Z) (data : bytes) :
  pack_BBBB x y z w = Ok data -> unpack_BBBB data = Ok (x, y, z, w).
Proof.
  unfold pack_BBBB, is_ubyte. destruct (_ && _) eqn:E; [|discriminate].
  intros [= <-]. rewrite !andb_true_iff in E.
  destruct E as [[[[? ?] [? ?]] [? ?]] [? ?]].
  unfold unpack_BBBB. rewrite !byte_to_Z_to_byte by lia. reflexivity.
Qed.

(** ** Running a computation *)

Lemma bind_run {S A B} (m : M S A) (k : A -> M S B) (s : S) :
  bind m k s
  = match m s with
    | (Ok v, s') => k v s'
    | (Raise e, s') => (Raise e, s')
    end.
Proof. reflexivity. Qed.

(** ** The clamping constructor *)

Lemma clamp_spec (v : Z) : clamps_to v (Z.max 0 (Z.min 255 v)).
Proof. unfold clamps_to. lia. Qed.

Lemma CLSColor_init_valid (x y z w : Z) :
  valid_color (CLSColor_init x y z w) = true.
Proof.
  unfold valid_color, is_ubyte, CLSColor_init; simpl.
  rewrite !andb_true_iff, !Z.leb_le. lia.
Qed.

Lemma CLSColor_init_id (c : CLSColor) :
  valid_color c = true -> CLSColor_init (r c) (g c) (b c) (a c) = c.
Proof.
  unfold valid_color, is_ubyte. rewrite !andb_true_iff, !Z.leb_le.
  intros H. destruct c as [x y z w]; simpl in *. unfold CLSColor_init.
  f_equal; lia.
Qed.

(** C6: for all integers, the constructor clamps each of the four channels
    into [0,255] and cannot reject its arguments (it is a total function):
    a value above 255 becomes 255, a value below 0 becomes 0, a value in
    range is kept; in particular r=300 gives 255 and r=-5 gives 0. *)
Theorem C6_constructor_clamps (x y z w : Z) :
  clamps_to x (r (CLSColor_init x y z w)) /\
  clamps_to y (g (CLSColor_init x y z w)) /\
  clamps_to z (b (CLSColor_init x y z w)) /\
  clamps_to w (a (CLSColor_init x y z w)) /\
  r (CLSColor_init 300 y z w) = 255 /\
  r (CLSColor_init (-5) y z w) = 0.
Proof.
  unfold CLSColor_init; simpl.
  repeat split; try apply clamp_spec; reflexivity.
Qed.

(** ** The signature check *)

(** C4: a buffer whose first four bytes are not SLCC, a buffer shorter than
    four bytes included, makes load_cls raise the wrong-signature ValueError,
    whatever follows. *)
Theorem C4_bad_signature (data : bytes) :
  firstn 4 data <> SLCC ->
  load_cls data = Raise (ValueError "Invalid .cls file: wrong signature").
Proof.
  intros Hsig. unfold load_cls, load_cls_file.
  rewrite bind_run. unfold f_read at 1, open_rb. cbn [unread].
  change (Z.to_nat 4) with 4%nat.
  destruct (bytes_eqb (firstn 4 data) SLCC) eqn:E.
  - apply bytes_eqb_eq in E. contradiction.
  - reflexivity.
Qed.

Lemma C4_bad_signature_witness :
  load_cls [x53; x4c; x43] = Raise (ValueError "Invalid .cls file: wrong signature")
  /\ load_cls [x43; x4c; x53; x53; x00; x01; x00; x00]
     = Raise (ValueError "Invalid .cls file: wrong signature").
Proof.
  split; apply C4_bad_signature; discriminate.
Defined.

(** ** Hex input of the wrong length *)

(** C10: when the text left by lstrip('#') has neither 6 nor 8 characters,
    add_color_from_hex returns normally and the palette is the one it was:
    same name, same colours. *)
Theorem C10_hex_wrong_length_ignored
  (int_base16 : str -> result Z) (hex_color : str) (alpha : Z)
  (self : CLSGenerator) :
  len (lstrip_hash hex_color) <> 6 ->
  len (lstrip_hash hex_color) <> 8 ->
  add_color_from_hex int_base16 hex_color alpha self = (Ok tt, self).
Proof.
  intros H6 H8. unfold add_color_from_hex.
  apply Z.eqb_neq in H6, H8. rewrite H6, H8. reflexivity.
Qed.

Lemma C10_hex_wrong_length_ignored_witness :
  let p := add_color 1 2 3 255 (CLSGenerator_init (str_of_string "P")) in
  add_color_from_hex int_hex_digits (str_of_string "#FFF") 255 p = (Ok tt, p).
Proof.
  apply C10_hex_wrong_length_ignored; vm_compute; discriminate.
Defined.

(** ** The palette invariant *)

Lemma valid_palette_add_color (x y z w : Z) (p : CLSGenerator) :
  valid_palette p = true -> valid_palette (add_color x y z w p) = true.
Proof.
  unfold valid_palette, add_color; cbn [colors]. intros H.
  rewrite forallb_app, H. cbn [forallb].
  now rewrite CLSColor_init_valid.
Qed.

Lemma valid_palette_from_hex (int_base16 : str -> result Z)
  (hex_color : str) (alpha : Z) (p : CLSGenerator) :
  valid_palette p = true ->
  valid_palette (snd (add_color_from_hex int_base16 hex_color alpha p)) = true.
Proof.
  intros H. unfold add_color_from_hex.
  destruct (len (lstrip_hash hex_color) =? 6);
    [|destruct (len (lstrip_hash hex_color) =? 8)];
    rewrite ?bind_run; unfold lift, ret;
    repeat (match goal with
            | |- context [int_base16 ?s] => destruct (int_base16 s)
            end; rewrite ?bind_run; cbn [snd]);
    auto using valid_palette_add_color.
Qed.

Lemma valid_palette_from_list (cs : list (Z * Z * Z)) (p : CLSGenerator) :
  valid_palette p = true -> valid_palette (add_colors_from_list cs p) = true.
Proof.
  revert p. induction cs as [|[[x y] z] cs IH]; intros p H; cbn; auto.
  apply IH, valid_palette_add_color, H.
Qed.

Lemma read_colors_valid (n : nat) (p q : CLSGenerator) (f f' : rfile) :
  valid_palette p = true ->
  read_colors n p f = (Ok q, f') -> valid_palette q = true.
Proof.
  revert p f. induction n as [|n IH]; intros p f Hp; cbn [read_colors].
  - unfold ret. now intros [= <- _].
  - rewrite bind_run. destruct (read_unpack 4 unpack_I f) as [[v1|e] f1];
      [|discriminate].
    rewrite bind_run. destruct (read_unpack 4 unpack_BBBB f1) as [[v2|e] f2];
      [|discriminate].
    rewrite bind_run. destruct (read_unpack 4 unpack_I f2) as [[v3|e] f3];
      [|discriminate].
    destruct v2 as [[[x y] z] w]. apply IH.
    now apply valid_palette_add_color.
Qed.

Lemma load_cls_valid (data : bytes) (q : CLSGenerator) :
  load_cls data = Ok q -> valid_palette q = true.
Proof.
  unfold load_cls, load_cls_file. rewrite bind_run.
  destruct (f_read 4 (open_rb data)) as [[sig|e] f0]; [|discriminate].
  destruct (negb (bytes_eqb sig SLCC)); [discriminate|].
  repeat (rewrite bind_run;
          match goal with
          | |- context [match ?m ?f with _ => _ end] =>
              destruct (m f) as [[?v|?e] ?f]; [|discriminate]
          end).
  destruct (read_colors _ _ _) as [res f'] eqn:E. cbn [fst]. intros ->.
  eapply read_colors_valid; [|exact E]. reflexivity.
Qed.

(** C9: every operation that can put a colour into a palette keeps all the
    colours of the palette valid (four channels in [0,255]): add_color,
    add_color_from_hex (whether it returns or raises, and whatever int
    returns), add_colors_from_list; clear keeps it too; and the palette that
    load_cls returns is valid for every input buffer. *)
Theorem C9_palette_invariant (int_base16 : str -> result Z)
  (p : CLSGenerator) :
  valid_palette p = true ->
  (forall x y z w, valid_palette (add_color x y z w p) = true) /\
  (forall hex_color alpha,
      valid_palette (snd (add_color_from_hex int_base16 hex_color alpha p))
      = true) /\
  (forall cs, valid_palette (add_colors_from_list cs p) = true) /\
  valid_palette (clear p) = true /\
  (forall data q, load_cls data = Ok q -> valid_palette q = true).
Proof.
  intros H. repeat split; intros.
  - now apply valid_palette_add_color.
  - now apply valid_palette_from_hex.
  - now apply valid_palette_from_list.
  - eapply load_cls_valid; eassumption.
Qed.

Lemma C9_palette_invariant_witness :
  let p := add_color 300 (-5) 7 255 (CLSGenerator_init (str_of_string "P")) in
  valid_palette p = true /\
  valid_palette
    (snd (add_color_from_hex int_hex_digits (str_of_string "#FF8000") 999 p))
  = true /\
  valid_palette (add_colors_from_list [(1, 2, 3); (1000, -1, 256)] p) = true.
Proof.
  intros p.
  assert (Hp : valid_palette p = true) by reflexivity.
  destruct (C9_palette_invariant int_hex_digits p Hp) as (_ & Hhex & Hlist & _).
  split; [exact Hp|]. split; [apply Hhex | apply Hlist].
Defined.

(** ** The documented example *)

(** C3: the palette named Rainbow with the one colour (255,0,0,255) is
    saved as exactly these 56 bytes: signature, version, header length 22,
    the two name fields of 7 bytes around four zero bytes, channel count 4,
    colour count 1, section length 12, block length 8, FF 00 00 FF and four
    zero bytes. *)
Theorem C3_rainbow_bytes :
  encode (add_color 255 0 0 255 (CLSGenerator_init (str_of_string "Rainbow")))
  = Ok ([x53; x4c; x43; x43] ++ [x00; x01] ++ [x16; x00; x00; x00]
        ++ [x07; x00] ++ [x52; x61; x69; x6e; x62; x6f; x77]
        ++ [x00; x00; x00; x00]
        ++ [x07; x00] ++ [x52; x61; x69; x6e; x62; x6f; x77]
        ++ [x04; x00; x00; x00] ++ [x01; x00; x00; x00]
        ++ [x0c; x00; x00; x00]
        ++ [x08; x00; x00; x00] ++ [xff; x00; x00; xff]
        ++ [x00; x00; x00; x00]).
Proof. vm_compute. reflexivity. Qed.

(** ** Truncated input *)

Lemma short_read_snoc (f : rfile) (asked got : nat) (rest : bytes) :
  short_read {| unread := rest; reads := reads f ++ [(asked, got)] |}
  = short_read f || (got <? asked)%nat.
Proof.
  unfold short_read; cbn [reads]. rewrite existsb_app. cbn [existsb].
  now rewrite orb_false_r.
Qed.

Lemma f_read_at_end (n : Z) (f : rfile) :
  at_end_if_short f -> at_end_if_short (snd (f_read n f)).
Proof.
  unfold at_end_if_short, f_read; cbn [snd unread]. intros Hf.
  rewrite short_read_snoc, orb_true_iff. intros [H|H].
  - rewrite (Hf H). now destruct (Z.to_nat n).
  - apply Nat.ltb_lt in H. rewrite length_firstn in H.
    apply skipn_all2. lia.
Qed.

Lemma unpack_H_exact : unpacks_exactly 2 unpack_H.
Proof. intros [|? [|? [|? ?]]]; reflexivity. Qed.

Lemma unpack_I_exact : unpacks_exactly 4 unpack_I.
Proof. intros [|? [|? [|? [|? [|? ?]]]]]; reflexivity. Qed.

Lemma unpack_BBBB_exact : unpacks_exactly 4 unpack_BBBB.
Proof. intros [|? [|? [|? [|? [|? ?]]]]]; reflexivity. Qed.

Lemma read_unpack_checking {A} (n : Z) (unpack : bytes -> result A) :
  0 < n -> unpacks_exactly (Z.to_nat n) unpack ->
  checking (read_unpack n unpack).
Proof.
  intros Hn Hu f Hf. unfold read_unpack. rewrite bind_run.
  pose proof (f_read_at_end n f Hf) as Hend.
  unfold f_read in *. cbn [snd] in Hend. unfold lift. cbn [fst snd].
  split; [exact Hend|].
  specialize (Hu (firstn (Z.to_nat n) (unread f))).
  destruct (unpack _); [|exact Hu].
  rewrite short_read_snoc, Hu, Nat.ltb_irrefl, orb_false_r.
  destruct (short_read f) eqn:Hs; [|reflexivity].
  rewrite (Hf Hs), firstn_nil in Hu. cbn in Hu. lia.
Qed.

Lemma checking_strict {A} (m : M rfile A) : checking m -> strict m.
Proof. intros H f Hf _. now apply H. Qed.

Lemma ret_strict {A} (v : A) : strict (ret v : M rfile A).
Proof. intros f Hf Hs. cbn. auto. Qed.

Lemma bind_checking {A B} (m : M rfile A) (k : A -> M rfile B) :
  checking m -> (forall v, strict (k v)) -> checking (bind m k).
Proof.
  intros Hm Hk f Hf. rewrite bind_run.
  destruct (Hm f Hf) as [Hend Hres].
  destruct (m f) as [[v|e] f1]; cbn [fst snd] in *.
  - now apply Hk.
  - auto.
Qed.

Lemma bind_f_read_checking {B} (n : Z) (k : bytes -> M rfile B) :
  (forall v, checking (k v)) -> checking (bind (f_read n) k).
Proof.
  intros Hk f Hf. rewrite bind_run.
  pose proof (f_read_at_end n f Hf) as Hend.
  unfold f_read in *. cbn [snd] in Hend. now apply Hk.
Qed.

Ltac checking_step :=
  first
    [ apply bind_f_read_checking; intro
    | apply bind_checking;
      [ apply read_unpack_checking;
        [ lia
        | first [ apply unpack_H_exact | apply unpack_I_exact
                | apply unpack_BBBB_exact ] ]
      | intro ] ].

Ltac strictness :=
  repeat first
    [ apply ret_strict
    | checking_step
    | apply checking_strict; checking_step ].

Lemma read_colors_strict (count : nat) (generator : CLSGenerator) :
  strict (read_colors count generator).
Proof.
  revert generator.
  induction count as [|count IH]; intros generator; cbn [read_colors].
  - apply ret_strict.
  - strictness. destruct v0 as [[[x y] z] w]. apply IH.
Qed.

(** What [load_cls] runs once the signature is accepted. *)
Lemma load_cls_file_signed (data : bytes) :
  firstn 4 data = SLCC ->
  exists body : M rfile CLSGenerator,
    checking body /\
    load_cls_file (open_rb data)
    = body {| unread := skipn 4 data; reads := [(4%nat, 4%nat)] |}.
Proof.
  intros Hsig. unfold load_cls_file. rewrite bind_run.
  unfold f_read at 1, open_rb. cbn [unread reads app].
  change (Z.to_nat 4) with 4%nat. rewrite Hsig.
  change (bytes_eqb SLCC SLCC) with true. cbn [negb length SLCC].
  eexists. split; [|reflexivity]. cbv zeta.
  strictness. apply read_colors_strict.
Qed.

(** What [load_cls] does on a signed buffer: it returns after complete
    reads only, or raises [struct.error]. *)
Lemma load_cls_file_signed_outcome (data : bytes) :
  firstn 4 data = SLCC ->
  match fst (load_cls_file (open_rb data)) with
  | Ok _ => short_read (snd (load_cls_file (open_rb data))) = false
  | Raise e => e = StructError
  end.
Proof.
  intros Hsig.
  destruct (load_cls_file_signed data Hsig) as (body & Hbody & Heq).
  rewrite Heq.
  apply (Hbody {| unread := skipn 4 data; reads := [(4%nat, 4%nat)] |}).
  intros H. discriminate H.
Qed.



(** ** The text codecs *)

Lemma utf8_decode_replace_cons (b0 : byte) (t1 : bytes) :
  utf8_decode_replace (b0 :: t1)
  = let z0 := byte_to_Z b0 in
    if z0 <? 128 then z0 :: utf8_decode_replace t1
    else if z0 <? 194 then 65533 :: utf8_decode_replace t1
    else if z0 <? 224 then
      match t1 with
      | [] => [65533]
      | b1 :: t2 =>
          let z1 := byte_to_Z b1 in
          if is_cont z1
          then (z0 - 192) * 64 + (z1 - 128) :: utf8_decode_replace t2
          else 65533 :: utf8_decode_replace t1
      end
    else if z0 <? 240 then
      match t1 with
      | [] => [65533]
      | b1 :: t2 =>
          let z1 := byte_to_Z b1 in
          if negb (is_cont z1)
             || (if z1 <? 160 then z0 =? 224 else z0 =? 237)
          then 65533 :: utf8_decode_replace t1
          else
            match t2 with
            | [] => [65533]
            | b2 :: t3 =>
                let z2 := byte_to_Z b2 in
                if is_cont z2
                then (z0 - 224) * 4096 + (z1 - 128) * 64 + (z2 - 128)
                     :: utf8_decode_replace t3
                else 65533 :: utf8_decode_replace t2
            end
      end
    else if z0 <? 245 then
      match t1 with
      | [] => [65533]
      | b1 :: t2 =>
          let z1 := byte_to_Z b1 in
          if negb (is_cont z1)
             || (if z1 <? 144 then z0 =? 240 else z0 =? 244)
          then 65533 :: utf8_decode_replace t1
          else
            match t2 with
            | [] => [65533]
            | b2 :: t3 =>
                let z2 := byte_to_Z b2 in
                if negb (is_cont z2)
                then 65533 :: utf8_decode_replace t2
                else
                  match t3 with
                  | [] => [65533]
                  | b3 :: t4 =>
                      let z3 := byte_to_Z b3 in
                      if is_cont z3
                      then (z0 - 240) * 262144 + (z1 - 128) * 4096
                           + (z2 - 128) * 64 + (z3 - 128)
                           :: utf8_decode_replace t4
                      else 65533 :: utf8_decode_replace t3
                  end
            end
      end
    else 65533 :: utf8_decode_replace t1.
Proof. reflexivity. Qed.

Lemma Ok_inj {A} (x y : A) : Ok x = Ok y -> x = y.
Proof. congruence. Qed.

Ltac decide_tests :=
  repeat (match goal with
          | |- context [?x <? ?y] => destruct (Z.ltb_spec x y); try lia
          | |- context [?x <=? ?y] => destruct (Z.leb_spec x y); try lia
          | |- context [?x =? ?y] => destruct (Z.eqb_spec x y); try lia
          end; cbn [negb andb orb]).

Lemma utf8_decode_encode_cp (c : Z) (data rest : bytes) :
  is_codepoint c = true ->
  utf8_encode_cp c = Ok data ->
  utf8_decode_replace (data ++ rest) = c :: utf8_decode_replace rest.
Proof.
  unfold is_codepoint, utf8_encode_cp, is_surrogate. intros Hc.
  apply andb_true_iff in Hc. destruct Hc as [H0 Hmax].
  apply Z.leb_le in H0, Hmax.
  destruct (Z.ltb_spec c 128) as [E1|E1];
    [|destruct (Z.ltb_spec c 2048) as [E2|E2];
      [|destruct (Z.ltb_spec c 65536) as [E3|E3];
        [destruct ((55296 <=? c) && (c <=? 57343)) eqn:E4; [discriminate|]|]]];
    intros H; apply Ok_inj in H; subst data; cbv [app];
    rewrite utf8_decode_replace_cons; cbv beta iota zeta; unfold is_cont.
  - rewrite !byte_to_Z_to_byte by lia. decide_tests. reflexivity.
  - rewrite !byte_to_Z_to_byte by lia. decide_tests; f_equal; lia.
  - assert (c < 55296 \/ 57343 < c) as Hs.
    { apply andb_false_iff in E4. rewrite Z.leb_gt, Z.leb_gt in E4. lia. }
    rewrite !byte_to_Z_to_byte by lia. decide_tests; f_equal; lia.
  - rewrite !byte_to_Z_to_byte by lia. decide_tests; f_equal; lia.
Qed.

Lemma utf8_decode_encode (s : str) (data : bytes) :
  is_str s = true -> utf8_encode s = Ok data -> utf8_decode_replace data = s.
Proof.
  revert data. induction s as [|c s IH]; intros data Hs; cbn [utf8_encode].
  - now intros [= <-].
  - cbn [is_str forallb] in Hs. apply andb_true_iff in Hs.
    destruct Hs as [Hc Hs].
    destruct (utf8_encode_cp c) as [d|e] eqn:Ec; [|discriminate].
    destruct (utf8_encode s) as [d'|e] eqn:Es; [|discriminate].
    intros H; apply Ok_inj in H; subst data.
    rewrite (utf8_decode_encode_cp c d d' Hc Ec). f_equal. now apply IH.
Qed.

Lemma utf8_encode_cp_length (c : Z) (data : bytes) :
  utf8_encode_cp c = Ok data -> 1 <= len data <= 4.
Proof.
  unfold utf8_encode_cp.
  repeat match goal with
         | |- context [if ?t then _ else _] => destruct t
         end;
    intros H; try discriminate H; apply Ok_inj in H; subst data;
    unfold len; cbn [length]; lia.
Qed.

(** The UTF-8 encoding of a name has at least as many bytes as the name has
    characters. *)
Lemma utf8_encode_length (s : str) (data : bytes) :
  utf8_encode s = Ok data -> len s <= len data.
Proof.
  revert data. induction s as [|c s IH]; intros data; cbn [utf8_encode].
  - intros H; apply Ok_inj in H; subst data. reflexivity.
  - destruct (utf8_encode_cp c) as [d|e] eqn:Ec; [|discriminate].
    destruct (utf8_encode s) as [d'|e] eqn:Es; [|discriminate].
    intros H; apply Ok_inj in H; subst data.
    apply utf8_encode_cp_length in Ec. specialize (IH d' eq_refl).
    rewrite len_app. unfold len in *. cbn [length]. lia.
Qed.

Lemma ascii_encode_replace_length (s : str) :
  len (ascii_encode_replace s) = len s.
Proof. unfold len, ascii_encode_replace. now rewrite length_map. Qed.

(** A name without any ASCII character is written as question marks. *)
Lemma ascii_encode_replace_non_ascii (s : str) :
  forallb (fun c => 128 <=? c) s = true ->
  ascii_encode_replace s = repeat x3f (length s).
Proof.
  induction s as [|c s IH]; cbn [forallb]; [reflexivity|].
  intros H. apply andb_true_iff in H. destruct H as [Hc Hs].
  apply Z.leb_le in Hc. cbn [ascii_encode_replace map length repeat].
  destruct (Z.ltb_spec c 128); [lia|]. f_equal. now apply IH.
Qed.

Lemma utf8_encode_nonempty (s : str) (data : bytes) :
  utf8_encode s = Ok data -> s <> [] -> data <> [].
Proof.
  intros H Hs Hd. subst data. apply utf8_encode_length in H.
  destruct s; [congruence|]. unfold len in H. cbn [length] in H. lia.
Qed.

(** ** Writing a file *)

Lemma pack_H_ok (v : Z) : 0 <= v <= 65535 -> pack_H v = Ok (le16 v).
Proof.
  intros H. unfold pack_H.
  destruct (Z.leb_spec 0 v); [|lia]. destruct (Z.leb_spec v 65535); [|lia].
  reflexivity.
Qed.

Lemma pack_I_ok (v : Z) : 0 <= v <= 4294967295 -> pack_I v = Ok (le32 v).
Proof.
  intros H. unfold pack_I.
  destruct (Z.leb_spec 0 v); [|lia].
  destruct (Z.leb_spec v 4294967295); [|lia]. reflexivity.
Qed.

Lemma write_packed_H (v : Z) (f : wfile) :
  0 <= v <= 65535 -> write_packed (pack_H v) f = (Ok tt, f ++ le16 v).
Proof. intros H. unfold write_packed. now rewrite bind_run, pack_H_ok. Qed.

Lemma write_packed_I (v : Z) (f : wfile) :
  0 <= v <= 4294967295 -> write_packed (pack_I v) f = (Ok tt, f ++ le32 v).
Proof. intros H. unfold write_packed. now rewrite bind_run, pack_I_ok. Qed.

Lemma write_packed_BBBB (c : CLSColor) (f : wfile) :
  valid_color c = true ->
  write_packed (pack_BBBB (r c) (g c) (b c) (a c)) f
  = (Ok tt,
     f ++ [Z_to_byte (r c); Z_to_byte (g c); Z_to_byte (b c); Z_to_byte (a c)]).
Proof.
  unfold valid_color. intros H. unfold write_packed, pack_BBBB.
  now rewrite bind_run, H.
Qed.

Lemma write_colors_ok (cs : list CLSColor) (f : wfile) :
  forallb valid_color cs = true ->
  write_colors cs f = (Ok tt, f ++ color_blocks cs).
Proof.
  revert f. induction cs as [|c cs IH]; intros f; cbn [forallb].
  - intros _. cbn. now rewrite app_nil_r.
  - intros H. apply andb_true_iff in H. destruct H as [Hc Hcs].
    cbn [write_colors color_blocks flat_map].
    rewrite bind_run, write_packed_I by lia.
    rewrite bind_run, write_packed_BBBB by exact Hc.
    rewrite bind_run, write_packed_I by lia.
    rewrite IH by exact Hcs. now rewrite <- !app_assoc.
Qed.

(** What [save] writes when the name fits the header and the colours are
    valid. *)
Lemma encode_layout (p : CLSGenerator) (u : bytes) :
  utf8_encode (name p) = Ok u ->
  len u <= 65535 ->
  valid_palette p = true ->
  len (colors p) * 12 <= 4294967295 ->
  encode p
  = Ok (layout (2 + len (ascii_encode_replace (name p)) + 4 + 2 + len u)
          (ascii_encode_replace (name p)) u
          (len (colors p)) (len (colors p) * 12)
          (color_blocks (colors p))).
Proof.
  intros Hu Hlen Hvalid Hcount.
  pose proof (utf8_encode_length _ _ Hu) as Hascii.
  rewrite <- ascii_encode_replace_length in Hascii.
  pose proof (len_nonneg (ascii_encode_replace (name p))).
  pose proof (len_nonneg u). pose proof (len_nonneg (colors p)).
  unfold encode, save.
  rewrite bind_run. unfold f_write at 1.
  rewrite bind_run, write_packed_H by lia. cbv zeta.
  rewrite bind_run. unfold lift at 1. rewrite Hu.
  rewrite bind_run, write_packed_I by lia.
  rewrite bind_run, write_packed_H by lia.
  rewrite bind_run. unfold f_write at 1.
  rewrite bind_run, write_packed_I by lia.
  rewrite bind_run, write_packed_H by lia.
  rewrite bind_run. unfold f_write at 1.
  rewrite bind_run, write_packed_I by lia.
  rewrite bind_run, write_packed_I by lia.
  rewrite bind_run, write_packed_I by lia.
  rewrite write_colors_ok by exact Hvalid.
  unfold layout. now rewrite <- !app_assoc.
Qed.

(** ** Reading a file *)

Lemma f_read_exact (n : Z) (data rest : bytes) (h : list (nat * nat)) :
  len data = n ->
  f_read n {| unread := data ++ rest; reads := h |}
  = (Ok data,
     {| unread := rest; reads := h ++ [(length data, length data)] |}).
Proof.
  intros <-. unfold f_read, len. cbn [unread reads]. rewrite Nat2Z.id.
  rewrite firstn_app, Nat.sub_diag, firstn_all, firstn_O, app_nil_r.
  rewrite skipn_app, Nat.sub_diag, skipn_all, skipn_O. reflexivity.
Qed.

Lemma read_unpack_exact {A} (n : Z) (unpack : bytes -> result A)
  (data rest : bytes) (h : list (nat * nat)) :
  len data = n ->
  read_unpack n unpack {| unread := data ++ rest; reads := h |}
  = (unpack data,
     {| unread := rest; reads := h ++ [(length data, length data)] |}).
Proof.
  intros H. unfold read_unpack. rewrite bind_run, f_read_exact by exact H.
  reflexivity.
Qed.

Lemma unpack_H_le16 (v : Z) : 0 <= v <= 65535 -> unpack_H (le16 v) = Ok v.
Proof. intros H. apply unpack_pack_H. now apply pack_H_ok. Qed.

Lemma unpack_I_le32 (v : Z) :
  0 <= v <= 4294967295 -> unpack_I (le32 v) = Ok v.
Proof. intros H. apply unpack_pack_I. now apply pack_I_ok. Qed.

Lemma read_colors_name (n : nat) (p q : CLSGenerator) (f f' : rfile) :
  read_colors n p f = (Ok q, f') -> name q = name p.
Proof.
  revert p f. induction n as [|n IH]; intros p f; cbn [read_colors].
  - unfold ret. now intros [= <- _].
  - rewrite bind_run. destruct (read_unpack 4 unpack_I f) as [[v1|e] f1];
      [|discriminate].
    rewrite bind_run. destruct (read_unpack 4 unpack_BBBB f1) as [[v2|e] f2];
      [|discriminate].
    rewrite bind_run. destruct (read_unpack 4 unpack_I f2) as [[v3|e] f3];
      [|discriminate].
    destruct v2 as [[[x y] z] w]. intros H. now apply IH in H.
Qed.

Lemma color_blocks_cons (c : CLSColor) (cs : list CLSColor) :
  color_blocks (c :: cs)
  = (le32 8
     ++ [Z_to_byte (r c); Z_to_byte (g c); Z_to_byte (b c); Z_to_byte (a c)]
     ++ le32 0)
    ++ color_blocks cs.
Proof. reflexivity. Qed.

Lemma read_colors_blocks (cs : list CLSColor) (p : CLSGenerator)
  (rest : bytes) (h : list (nat * nat)) :
  forallb valid_color cs = true ->
  exists h',
    read_colors (length cs) p {| unread := color_blocks cs ++ rest; reads := h |}
    = (Ok {| name := name p; colors := colors p ++ cs |},
       {| unread := rest; reads := h' |}).
Proof.
  revert p h. induction cs as [|c cs IH]; intros p h; cbn [forallb].
  - intros _. eexists. cbn. rewrite app_nil_r. now destruct p.
  - intros H. apply andb_true_iff in H. destruct H as [Hc Hcs].
    cbn [length read_colors]. rewrite color_blocks_cons, <- !app_assoc.
    rewrite bind_run, read_unpack_exact by reflexivity.
    rewrite unpack_I_le32 by lia.
    rewrite bind_run.
    rewrite (read_unpack_exact 4 unpack_BBBB
               [Z_to_byte (r c); Z_to_byte (g c); Z_to_byte (b c);
                Z_to_byte (a c)]) by reflexivity.
    pose proof Hc as Hc'. unfold valid_color, is_ubyte in Hc'.
    rewrite !andb_true_iff, !Z.leb_le in Hc'.
    cbn [unpack_BBBB]. rewrite !byte_to_Z_to_byte by lia.
    rewrite bind_run, read_unpack_exact by reflexivity.
    rewrite unpack_I_le32 by lia. cbv beta iota.
    match goal with
    | |- context [read_colors _ _ {| unread := _; reads := ?hh |}] =>
        destruct (IH (add_color (r c) (g c) (b c) (a c) p) hh Hcs)
          as [h' Eh']
    end.
    exists h'. rewrite Eh'.
    unfold add_color. cbn [name colors].
    rewrite CLSColor_init_id by exact Hc. now rewrite <- app_assoc.
Qed.

(** [load_cls] on a file with a complete header: the palette gets its name
    from the two name fields, and the colours section is read next. *)
Lemma load_cls_file_header (version header_length ascii_name reserved
                              utf8_name rest : bytes) :
  length version = 2%nat -> length header_length = 4%nat ->
  length reserved = 4%nat ->
  len ascii_name <= 65535 -> len utf8_name <= 65535 ->
  exists h,
    load_cls_file
      (open_rb (SLCC ++ version ++ header_length
                ++ le16 (len ascii_name) ++ ascii_name ++ reserved
                ++ le16 (len utf8_name) ++ utf8_name ++ rest))
    = load_colors_section
        (CLSGenerator_init
           (preferred_name (utf8_decode_replace utf8_name)
              (ascii_decode_replace ascii_name)))
        {| unread := rest; reads := h |}.
Proof.
  intros Hv Hh Hr Ha Hu.
  pose proof (len_nonneg ascii_name). pose proof (len_nonneg utf8_name).
  destruct version as [|v0 [|v1 [|]]]; try discriminate Hv.
  destruct header_length as [|h0 [|h1 [|h2 [|h3 [|]]]]]; try discriminate Hh.
  unfold load_cls_file, open_rb.
  rewrite bind_run, f_read_exact by reflexivity.
  change (bytes_eqb SLCC SLCC) with true. cbn [negb].
  rewrite bind_run, read_unpack_exact by reflexivity. cbn [unpack_H].
  rewrite bind_run, read_unpack_exact by reflexivity. cbn [unpack_I].
  rewrite bind_run, read_unpack_exact by reflexivity.
  rewrite unpack_H_le16 by lia.
  rewrite bind_run, f_read_exact by reflexivity. cbv zeta.
  rewrite bind_run, f_read_exact by (unfold len; lia).
  rewrite bind_run, read_unpack_exact by reflexivity.
  rewrite unpack_H_le16 by lia.
  rewrite bind_run, f_read_exact by reflexivity.
  eexists. reflexivity.
Qed.

(** ** The shape of an accepted file *)

Lemma read_unpack_inv {A} (n : Z) (k : nat) (unpack : bytes -> result A)
  (f f' : rfile) (v : A) :
  unpacks_exactly k unpack -> Z.to_nat n = k ->
  read_unpack n unpack f = (Ok v, f') ->
  exists d, unread f = d ++ unread f' /\ length d = k /\ unpack d = Ok v.
Proof.
  intros Hu Hn. unfold read_unpack. rewrite bind_run. unfold f_read, lift.
  rewrite Hn. intros [= Hv <-]. cbn [unread].
  exists (firstn k (unread f)). split; [now rewrite firstn_skipn|].
  split; [|exact Hv]. specialize (Hu (firstn k (unread f))).
  now rewrite Hv in Hu.
Qed.

Lemma unpack_H_inv (d : bytes) (v : Z) :
  unpack_H d = Ok v -> d = le16 v /\ 0 <= v <= 65535.
Proof.
  destruct d as [|b0 [|b1 [|? ?]]]; try discriminate. cbn [unpack_H].
  intros H; apply Ok_inj in H; subst v.
  pose proof (byte_to_Z_range b0). pose proof (byte_to_Z_range b1).
  split; [|lia]. unfold le16.
  replace ((byte_to_Z b0 + 256 * byte_to_Z b1) mod 256) with (byte_to_Z b0)
    by lia.
  replace ((byte_to_Z b0 + 256 * byte_to_Z b1) / 256) with (byte_to_Z b1)
    by lia.
  now rewrite !Z_to_byte_to_Z.
Qed.

Lemma firstn_complete {A} (k : nat) (l : list A) :
  skipn k l <> [] -> length (firstn k l) = k.
Proof.
  intros H. rewrite length_firstn.
  destruct (Nat.le_gt_cases (length l) k) as [Hle|Hgt]; [|lia].
  now rewrite skipn_all2 in H.
Qed.

(** A buffer that [load_cls] accepts has a complete header. *)
Lemma load_cls_header_shape (data : bytes) (q : CLSGenerator) :
  load_cls data = Ok q ->
  exists version header_length ascii_name reserved utf8_name rest,
    length version = 2%nat /\ length header_length = 4%nat /\
    length reserved = 4%nat /\
    len ascii_name <= 65535 /\ len utf8_name <= 65535 /\
    data = SLCC ++ version ++ header_length
           ++ le16 (len ascii_name) ++ ascii_name ++ reserved
           ++ le16 (len utf8_name) ++ utf8_name ++ rest.
Proof.
  unfold load_cls, load_cls_file. rewrite bind_run.
  unfold f_read at 1, open_rb. cbn [unread reads].
  change (Z.to_nat 4) with 4%nat.
  destruct (bytes_eqb (firstn 4 data) SLCC) eqn:Esig; cbn [negb];
    [|discriminate].
  apply bytes_eqb_eq in Esig.
  set (f0 := {| unread := skipn 4 data; reads := _ |}).
  rewrite bind_run.
  destruct (read_unpack 2 unpack_H f0) as [[version|e] f1] eqn:E1;
    [|discriminate].
  rewrite bind_run.
  destruct (read_unpack 4 unpack_I f1) as [[hl|e] f2] eqn:E2; [|discriminate].
  rewrite bind_run.
  destruct (read_unpack 2 unpack_H f2) as [[l1|e] f3] eqn:E3; [|discriminate].
  rewrite bind_run. unfold f_read at 1. cbv zeta. rewrite bind_run.
  unfold f_read at 1. cbn [unread reads].
  set (f5 := {| unread := skipn (Z.to_nat 4) _; reads := _ |}).
  rewrite bind_run.
  destruct (read_unpack 2 unpack_H f5) as [[l2|e] f6] eqn:E6; [|discriminate].
  rewrite bind_run. unfold f_read at 1. cbn [unread reads].
  set (f7 := {| unread := skipn (Z.to_nat l2) _; reads := _ |}).
  rewrite bind_run.
  destruct (read_unpack 4 unpack_I f7) as [[ch|e] f8] eqn:E8; [|discriminate].
  intros _.
  destruct (read_unpack_inv 2 2 _ _ _ _ unpack_H_exact eq_refl E1)
    as (dv & Hdv & Lv & _).
  destruct (read_unpack_inv 4 4 _ _ _ _ unpack_I_exact eq_refl E2)
    as (dh & Hdh & Lh & _).
  destruct (read_unpack_inv 2 2 _ _ _ _ unpack_H_exact eq_refl E3)
    as (d1 & Hd1 & L1 & U1).
  destruct (read_unpack_inv 2 2 _ _ _ _ unpack_H_exact eq_refl E6)
    as (d2 & Hd2 & L2 & U2).
  destruct (read_unpack_inv 4 4 _ _ _ _ unpack_I_exact eq_refl E8)
    as (dc & Hdc & Lc & _).
  apply unpack_H_inv in U1, U2. destruct U1 as [-> R1], U2 as [-> R2].
  subst f0 f5 f7. cbn [unread] in *.
  change (Z.to_nat 4) with 4%nat in *.
  assert (Hu : length (firstn (Z.to_nat l2) (unread f6)) = Z.to_nat l2).
  { apply firstn_complete. rewrite Hdc. now destruct dc. }
  assert (Hr : length (firstn 4 (skipn (Z.to_nat l1) (unread f3))) = 4%nat).
  { apply firstn_complete. rewrite Hd2. discriminate. }
  assert (Ha : length (firstn (Z.to_nat l1) (unread f3)) = Z.to_nat l1).
  { apply firstn_complete. intros E. rewrite E in Hr. discriminate Hr. }
  exists dv, dh, (firstn (Z.to_nat l1) (unread f3)),
    (firstn 4 (skipn (Z.to_nat l1) (unread f3))),
    (firstn (Z.to_nat l2) (unread f6)), (skipn (Z.to_nat l2) (unread f6)).
  unfold len. rewrite Ha, Hu, !Z2Nat.id by lia.
  repeat (split; [assumption || lia|]).
  rewrite (firstn_skipn (Z.to_nat l2)), <- Hd2.
  rewrite (firstn_skipn 4), (firstn_skipn (Z.to_nat l1)).
  rewrite <- Hd1, <- Hdh, <- Hdv, <- Esig. now rewrite firstn_skipn.
Qed.

(** ** The colours section *)

Lemma load_colors_section_name (p q : CLSGenerator) (f f' : rfile) :
  load_colors_section p f = (Ok q, f') -> name q = name p.
Proof.
  unfold load_colors_section.
  repeat (rewrite bind_run;
          match goal with
          | |- context [match ?m ?s with _ => _ end] =>
              destruct (m s) as [[?v|?e] ?f]; [|discriminate]
          end).
  apply read_colors_name.
Qed.

Lemma load_colors_section_blocks (channels section_length : Z)
  (cs : list CLSColor) (p : CLSGenerator) (rest : bytes)
  (h : list (nat * nat)) :
  0 <= channels <= 4294967295 ->
  0 <= section_length <= 4294967295 ->
  len cs <= 4294967295 ->
  forallb valid_color cs = true ->
  exists h',
    load_colors_section p
      {| unread := le32 channels ++ le32 (len cs) ++ le32 section_length
                   ++ color_blocks cs ++ rest;
         reads := h |}
    = (Ok {| name := name p; colors := colors p ++ cs |},
       {| unread := rest; reads := h' |}).
Proof.
  intros Hch Hsl Hn Hcs. pose proof (len_nonneg cs).
  unfold load_colors_section.
  rewrite bind_run, read_unpack_exact by reflexivity.
  rewrite unpack_I_le32 by lia.
  rewrite bind_run, read_unpack_exact by reflexivity.
  rewrite unpack_I_le32 by lia.
  rewrite bind_run, read_unpack_exact by reflexivity.
  rewrite unpack_I_le32 by lia.
  unfold len. rewrite Nat2Z.id. now apply read_colors_blocks.
Qed.

(** [load_cls] on a file of the layout that [save] writes: the whole file
    is read. *)
Lemma load_cls_file_layout (header_length section_length : Z)
  (ascii_name utf8_name : bytes) (cs : list CLSColor) :
  0 <= header_length <= 4294967295 ->
  0 <= section_length <= 4294967295 ->
  len ascii_name <= 65535 -> len utf8_name <= 65535 ->
  len cs <= 4294967295 ->
  forallb valid_color cs = true ->
  exists h,
    load_cls_file
      (open_rb (layout header_length ascii_name utf8_name (len cs)
                  section_length (color_blocks cs)))
    = (Ok {| name := preferred_name (utf8_decode_replace utf8_name)
                       (ascii_decode_replace ascii_name);
             colors := cs |},
       {| unread := []; reads := h |}).
Proof.
  intros Hhl Hsl Ha Hu Hn Hcs. unfold layout.
  destruct (load_cls_file_header (le16 256) (le32 header_length) ascii_name
              (le32 0) utf8_name
              (le32 4 ++ le32 (len cs) ++ le32 section_length
               ++ color_blocks cs ++ []))
    as [h Eh]; try reflexivity; try assumption.
  rewrite app_nil_r in Eh. rewrite Eh.
  destruct (load_colors_section_blocks 4 section_length cs
              (CLSGenerator_init
                 (preferred_name (utf8_decode_replace utf8_name)
                    (ascii_decode_replace ascii_name))) [] h)
    as [h' Eh']; try assumption; try lia.
  rewrite app_nil_r in Eh'. rewrite Eh'. now exists h'.
Qed.

Lemma load_cls_layout (header_length section_length : Z)
  (ascii_name utf8_name : bytes) (cs : list CLSColor) :
  0 <= header_length <= 4294967295 ->
  0 <= section_length <= 4294967295 ->
  len ascii_name <= 65535 -> len utf8_name <= 65535 ->
  len cs <= 4294967295 ->
  forallb valid_color cs = true ->
  load_cls (layout header_length ascii_name utf8_name (len cs)
              section_length (color_blocks cs))
  = Ok {| name := preferred_name (utf8_decode_replace utf8_name)
                    (ascii_decode_replace ascii_name);
          colors := cs |}.
Proof.
  intros Hhl Hsl Ha Hu Hn Hcs. unfold load_cls.
  destruct (load_cls_file_layout header_length section_length ascii_name
              utf8_name cs Hhl Hsl Ha Hu Hn Hcs) as [h Eh].
  now rewrite Eh.
Qed.

Lemma name_fits_inv (s : str) :
  name_fits s = true -> exists u, utf8_encode s = Ok u /\ len u <= 65535.
Proof.
  unfold name_fits. destruct (utf8_encode s) as [u|e]; [|discriminate].
  intros H. apply Z.leb_le in H. eauto.
Qed.

Lemma ascii_decode_replace_nil_iff (data : bytes) :
  ascii_decode_replace data = [] <-> data = [].
Proof. destruct data; cbn; split; congruence. Qed.

(** The name that [load_cls] takes from the name fields that [save] wrote. *)
Lemma preferred_name_encoded (s : str) (u : bytes) :
  is_str s = true -> utf8_encode s = Ok u ->
  preferred_name (utf8_decode_replace u)
    (ascii_decode_replace (ascii_encode_replace s)) = s.
Proof.
  intros Hs Hu. rewrite (utf8_decode_encode s u Hs Hu).
  destruct s; reflexivity.
Qed.

(** Saving then loading, for a name that fits and valid colours. *)
Lemma load_encode (p : CLSGenerator) :
  is_str (name p) = true -> name_fits (name p) = true ->
  valid_palette p = true -> len (colors p) <= 357913941 ->
  exists u,
    utf8_encode (name p) = Ok u /\
    encode p
    = Ok (layout (2 + len (ascii_encode_replace (name p)) + 4 + 2 + len u)
            (ascii_encode_replace (name p)) u
            (len (colors p)) (len (colors p) * 12)
            (color_blocks (colors p))) /\
    load_cls
      (layout (2 + len (ascii_encode_replace (name p)) + 4 + 2 + len u)
         (ascii_encode_replace (name p)) u
         (len (colors p)) (len (colors p) * 12)
         (color_blocks (colors p)))
    = Ok p.
Proof.
  intros Hs Hfit Hvalid Hcount.
  destruct (name_fits_inv _ Hfit) as (u & Hu & Hlen).
  pose proof (utf8_encode_length _ _ Hu) as Hascii.
  rewrite <- ascii_encode_replace_length in Hascii.
  pose proof (len_nonneg (ascii_encode_replace (name p))).
  pose proof (len_nonneg u). pose proof (len_nonneg (colors p)).
  exists u. split; [exact Hu|]. split.
  - apply encode_layout; try assumption; lia.
  - rewrite load_cls_layout; try assumption; try lia.
    rewrite (preferred_name_encoded _ _ Hs Hu). now destruct p.
Qed.

(** ** When save returns *)

Lemma write_packed_inv (packed : result bytes) (f f' : wfile) :
  write_packed packed f = (Ok tt, f') ->
  exists data, packed = Ok data /\ f' = f ++ data.
Proof.
  unfold write_packed. rewrite bind_run. unfold lift.
  destruct packed as [data|e]; [|discriminate].
  unfold f_write. intros [= <-]. eauto.
Qed.

Lemma pack_H_inv (v : Z) (data : bytes) :
  pack_H v = Ok data -> 0 <= v <= 65535.
Proof.
  unfold pack_H. destruct (Z.leb_spec 0 v); [|discriminate].
  destruct (Z.leb_spec v 65535); [|discriminate]. lia.
Qed.

Lemma pack_I_inv (v : Z) (data : bytes) :
  pack_I v = Ok data -> 0 <= v <= 4294967295.
Proof.
  unfold pack_I. destruct (Z.leb_spec 0 v); [|discriminate].
  destruct (Z.leb_spec v 4294967295); [|discriminate]. lia.
Qed.

Lemma write_colors_inv (cs : list CLSColor) (f f' : wfile) :
  write_colors cs f = (Ok tt, f') -> forallb valid_color cs = true.
Proof.
  revert f. induction cs as [|c cs IH]; intros f; [reflexivity|].
  cbn [write_colors forallb].
  rewrite bind_run.
  destruct (write_packed (pack_I 8) f) as [[[]|e] f1]; [|discriminate].
  rewrite bind_run.
  destruct (write_packed _ f1) as [[[]|e] f2] eqn:E2; [|discriminate].
  rewrite bind_run.
  destruct (write_packed (pack_I 0) f2) as [[[]|e] f3]; [|discriminate].
  intros H. apply IH in H. rewrite H, andb_true_r.
  apply write_packed_inv in E2. destruct E2 as (data & E2 & _).
  unfold pack_BBBB in E2. unfold valid_color.
  destruct (_ && _) in E2 |- *; [reflexivity | discriminate].
Qed.

(** [save] returns exactly when the name fits the header, every colour is
    valid and the length of the colours section fits 32 bits. *)
Lemma encode_succeeds_iff (p : CLSGenerator) :
  (exists data, encode p = Ok data) <->
  name_fits (name p) = true /\ valid_palette p = true /\
  len (colors p) <= 357913941.
Proof.
  split.
  - intros [data H]. unfold encode in H.
    destruct (save p []) as [[[]|e] f] eqn:E; [clear H|discriminate].
    unfold save in E. rewrite bind_run in E. unfold f_write at 1 in E.
    rewrite bind_run in E.
    destruct (write_packed (pack_H 256) _) as [[[]|e] f1]; [|discriminate].
    cbv zeta in E. rewrite bind_run in E. unfold lift at 1 in E.
    destruct (utf8_encode (name p)) as [u|e] eqn:Eu; [|discriminate].
    repeat (rewrite bind_run in E;
            match type of E with
            | match ?m ?s with _ => _ end = _ =>
                let H := fresh "W" in
                destruct (m s) as [[[]|?e] ?f] eqn:H; [|discriminate]
            end).
    apply write_colors_inv in E.
    repeat match goal with
           | H : write_packed (pack_H _) _ = _ |- _ =>
               apply write_packed_inv in H; destruct H as (? & H & _);
               apply pack_H_inv in H
           | H : write_packed (pack_I _) _ = _ |- _ =>
               apply write_packed_inv in H; destruct H as (? & H & _);
               apply pack_I_inv in H
           end.
    unfold name_fits. rewrite Eu.
    split; [apply Z.leb_le; lia|]. split; [exact E | lia].
  - intros (Hfit & Hvalid & Hcount).
    destruct (name_fits_inv _ Hfit) as (u & Hu & Hlen).
    eexists. apply (encode_layout p u); try assumption. lia.
Qed.

(** ** Saving and loading *)

(** C1, as amended: a palette whose name is free of lone surrogates and has
    a UTF-8 encoding of at most 65535 bytes, and which has at most 10,000
    (valid) colours, is saved to a buffer from which load_cls returns an
    equal palette: the same name, which the UTF-8 field of the buffer decodes
    to, and the same colours in the same order. *)
Theorem C1_round_trip (p : CLSGenerator) :
  is_str (name p) = true ->
  name_fits (name p) = true ->
  valid_palette p = true ->
  len (colors p) <= 10000 ->
  exists utf8_name data,
    encode p = Ok data /\
    data = layout (2 + len (ascii_encode_replace (name p)) + 4 + 2
                   + len utf8_name)
             (ascii_encode_replace (name p)) utf8_name
             (len (colors p)) (len (colors p) * 12)
             (color_blocks (colors p)) /\
    utf8_decode_replace utf8_name = name p /\
    load_cls data = Ok p.
Proof.
  intros Hs Hfit Hvalid Hcount.
  destruct (load_encode p Hs Hfit Hvalid) as (u & Hu & Henc & Hload).
  - lia.
  - exists u. eexists. split; [exact Henc|]. split; [reflexivity|].
    split; [exact (utf8_decode_encode _ _ Hs Hu) | exact Hload].
Qed.

Lemma C1_round_trip_witness :
  let p := add_color 300 (-5) 7 255
             (add_color 0 128 255 0 (CLSGenerator_init [28779; 23665])) in
  exists data, encode p = Ok data /\ load_cls data = Ok p.
Proof.
  intros p.
  destruct (C1_round_trip p) as (u & data & Henc & _ & _ & Hload);
    [reflexivity | reflexivity | reflexivity | vm_compute; discriminate |].
  exists data. split; assumption.
Defined.

(** The claim C1 as it is written fails on a name of 65536 letters a: the
    palette has one colour and a well-formed name, and save raises
    struct.error on the length field, so that no buffer is there to load. *)
Lemma C1_round_trip_counterexample :
  let p := add_color 255 0 0 255
             (CLSGenerator_init (repeat 97 (Z.to_nat 65536))) in
  is_str (name p) = true /\
  valid_palette p = true /\
  len (colors p) <= 10000 /\
  encode p = Raise StructError /\
  ~ (exists data, encode p = Ok data /\ load_cls data = Ok p).
Proof.
  intros p.
  assert (Henc : encode p = Raise StructError) by (vm_compute; reflexivity).
  split; [vm_compute; reflexivity|].
  split; [vm_compute; reflexivity|].
  split; [vm_compute; discriminate|].
  split; [exact Henc|].
  intros (data & H & _). rewrite Henc in H. discriminate H.
Qed.

(** C2, as amended: save returns, and leaves a byte sequence, for every
    name that is free of lone surrogates and has a UTF-8 encoding of at
    most 65535 bytes, and every list of at most 357,913,941 colours built by
    the constructor. *)
Theorem C2_encode_succeeds (p : CLSGenerator) :
  name_fits (name p) = true ->
  valid_palette p = true ->
  len (colors p) <= 357913941 ->
  exists data, encode p = Ok data.
Proof.
  intros Hfit Hvalid Hcount.
  destruct (name_fits_inv _ Hfit) as (u & Hu & Hlen).
  eexists. apply (encode_layout p u); try assumption. lia.
Qed.

Lemma C2_encode_succeeds_witness :
  exists data,
    encode (add_color 1 2 3 4 (CLSGenerator_init (str_of_string "Pastel Dreams")))
    = Ok data.
Proof.
  apply C2_encode_succeeds; [reflexivity | reflexivity |].
  vm_compute. discriminate.
Defined.

(** The claim C2 as it is written fails: save raises struct.error on a name
    of 65536 letters, and UnicodeEncodeError on a name that is one lone
    surrogate. *)
Lemma C2_encode_succeeds_counterexample :
  encode (CLSGenerator_init (repeat 120 (Z.to_nat 65536))) = Raise StructError
  /\ encode (CLSGenerator_init [55296]) = Raise UnicodeEncodeError
  /\ ~ (exists data,
           encode (CLSGenerator_init (repeat 120 (Z.to_nat 65536))) = Ok data).
Proof.
  assert (Henc : encode (CLSGenerator_init (repeat 120 (Z.to_nat 65536)))
                 = Raise StructError) by (vm_compute; reflexivity).
  split; [exact Henc|]. split; [vm_compute; reflexivity|].
  intros (data & H). rewrite Henc in H. discriminate H.
Qed.

(** C7, as amended: on load, the name of the palette is the UTF-8 name
    field decoded when that text is not empty, and the ASCII name field
    decoded otherwise.  For a name made of non-ASCII characters only, free
    of lone surrogates and with a UTF-8 encoding of at most 65535 bytes,
    save writes one question mark for every character in the ASCII field
    and the exact UTF-8 text in the other field, and loading the buffer
    gives the name back. *)
Theorem C7_name_fields (p : CLSGenerator) :
  is_str (name p) = true ->
  forallb (fun c => 128 <=? c) (name p) = true ->
  name_fits (name p) = true ->
  valid_palette p = true ->
  len (colors p) <= 357913941 ->
  (forall data q,
      load_cls data = Ok q ->
      exists version header_length ascii_name reserved utf8_name rest,
        data = SLCC ++ version ++ header_length
               ++ le16 (len ascii_name) ++ ascii_name ++ reserved
               ++ le16 (len utf8_name) ++ utf8_name ++ rest /\
        length version = 2%nat /\ length header_length = 4%nat /\
        length reserved = 4%nat /\
        len ascii_name <= 65535 /\ len utf8_name <= 65535 /\
        name q = match utf8_decode_replace utf8_name with
                 | [] => ascii_decode_replace ascii_name
                 | _ :: _ => utf8_decode_replace utf8_name
                 end) /\
  (exists utf8_name data,
      utf8_encode (name p) = Ok utf8_name /\
      utf8_decode_replace utf8_name = name p /\
      encode p = Ok data /\
      data = layout (2 + len (name p) + 4 + 2 + len utf8_name)
               (repeat x3f (length (name p))) utf8_name
               (len (colors p)) (len (colors p) * 12)
               (color_blocks (colors p)) /\
      load_cls data = Ok p).
Proof.
  intros Hs Hnon Hfit Hvalid Hcount. split.
  - intros data q Hload.
    destruct (load_cls_header_shape data q Hload)
      as (version & header_length & ascii_name & reserved & utf8_name & rest
          & Hv & Hh & Hr & Ha & Hu & ->).
    exists version, header_length, ascii_name, reserved, utf8_name, rest.
    repeat (split; [reflexivity || assumption|]).
    destruct (load_cls_file_header version header_length ascii_name reserved
                utf8_name rest Hv Hh Hr Ha Hu) as [h Eh].
    unfold load_cls in Hload. rewrite Eh in Hload.
    destruct (load_colors_section _ _) as [res f'] eqn:E.
    cbn [fst] in Hload. subst res.
    apply load_colors_section_name in E. exact E.
  - destruct (load_encode p Hs Hfit Hvalid Hcount) as (u & Hu & Henc & Hload).
    rewrite (ascii_encode_replace_non_ascii _ Hnon) in Henc, Hload.
    assert (Hrep : len (repeat x3f (length (name p))) = len (name p))
      by (unfold len; now rewrite repeat_length).
    rewrite Hrep in Henc, Hload.
    exists u. eexists. split; [exact Hu|].
    split; [exact (utf8_decode_encode _ _ Hs Hu)|].
    split; [exact Henc|]. split; [reflexivity | exact Hload].
Qed.

Lemma C7_name_fields_witness :
  let p := add_color 255 128 0 255 (CLSGenerator_init [28779; 23665]) in
  exists utf8_name data,
    utf8_encode (name p) = Ok utf8_name /\
    utf8_decode_replace utf8_name = name p /\
    encode p = Ok data /\
    data = layout (2 + len (name p) + 4 + 2 + len utf8_name)
             (repeat x3f (length (name p))) utf8_name
             (len (colors p)) (len (colors p) * 12)
             (color_blocks (colors p)) /\
    load_cls data = Ok p.
Proof.
  intros p.
  refine (proj2 (C7_name_fields p _ _ _ _ _)); try reflexivity.
  vm_compute. discriminate.
Defined.

(** The claim C7 as it is written fails on the name made of 32768 times the
    letter e with acute accent: every character is outside ASCII, the ASCII
    field of 32768 question marks fits, but the UTF-8 text has 65536 bytes
    and save raises struct.error; no buffer is there to load. *)
Lemma C7_name_fields_counterexample :
  let p := CLSGenerator_init (repeat 233 (Z.to_nat 32768)) in
  is_str (name p) = true /\
  forallb (fun c => 128 <=? c) (name p) = true /\
  encode p = Raise StructError /\
  ~ (exists data, encode p = Ok data /\ load_cls data = Ok p).
Proof.
  intros p.
  assert (Henc : encode p = Raise StructError) by (vm_compute; reflexivity).
  split; [vm_compute; reflexivity|].
  split; [vm_compute; reflexivity|].
  split; [exact Henc|].
  intros (data & H & _). rewrite Henc in H. discriminate H.
Qed.

(** C8, as amended: for a name that is free of lone surrogates and has a
    UTF-8 encoding of at most 65535 bytes, saving the palette without
    colours succeeds; the buffer has 0 in the colour-count field and 0 in
    the field of the length of the colours section, and no colour block;
    loading it gives the palette with the same name and no colour. *)
Theorem C8_empty_palette (s : str) :
  is_str s = true ->
  name_fits s = true ->
  exists utf8_name data,
    utf8_encode s = Ok utf8_name /\
    encode (CLSGenerator_init s) = Ok data /\
    data = layout (2 + len (ascii_encode_replace s) + 4 + 2 + len utf8_name)
             (ascii_encode_replace s) utf8_name 0 0 [] /\
    le32 0 = [x00; x00; x00; x00] /\
    load_cls data = Ok {| name := s; colors := [] |}.
Proof.
  intros Hs Hfit.
  destruct (load_encode (CLSGenerator_init s) Hs Hfit eq_refl)
    as (u & Hu & Henc & Hload).
  - cbn. lia.
  - exists u. eexists. split; [exact Hu|]. split; [exact Henc|].
    split; [reflexivity|]. split; [reflexivity | exact Hload].
Qed.

Lemma C8_empty_palette_witness :
  exists utf8_name data,
    utf8_encode (str_of_string "Grayscale") = Ok utf8_name /\
    encode (CLSGenerator_init (str_of_string "Grayscale")) = Ok data /\
    data = layout (2 + len (ascii_encode_replace (str_of_string "Grayscale"))
                   + 4 + 2 + len utf8_name)
             (ascii_encode_replace (str_of_string "Grayscale")) utf8_name
             0 0 [] /\
    le32 0 = [x00; x00; x00; x00] /\
    load_cls data = Ok {| name := str_of_string "Grayscale"; colors := [] |}.
Proof.
  apply C8_empty_palette; reflexivity.
Defined.

(** The claim C8 as it is written fails on the palette without colours
    whose name is 70000 letters z: save raises struct.error. *)
Lemma C8_empty_palette_counterexample :
  let p := clear (add_color 1 2 3 255
                    (CLSGenerator_init (repeat 122 (Z.to_nat 70000)))) in
  colors p = [] /\
  is_str (name p) = true /\
  encode p = Raise StructError /\
  ~ (exists data, encode p = Ok data).
Proof.
  intros p.
  assert (Henc : encode p = Raise StructError) by (vm_compute; reflexivity).
  split; [vm_compute; reflexivity|].
  split; [vm_compute; reflexivity|].
  split; [exact Henc|].
  intros (data & H). rewrite Henc in H. discriminate H.
Qed.

(** ** Truncated files *)

Lemma f_read_keeps_short (n : Z) : keeps_short (f_read n).
Proof.
  intros f H. unfold f_read. cbn [snd]. now rewrite short_read_snoc, H.
Qed.

Lemma lift_keeps_short {A} (x : result A) : keeps_short (lift x : M rfile A).
Proof. intros f H. exact H. Qed.

Lemma ret_keeps_short {A} (v : A) : keeps_short (ret v : M rfile A).
Proof. intros f H. exact H. Qed.

Lemma raise_keeps_short {A} (e : exn) : keeps_short (raise e : M rfile A).
Proof. intros f H. exact H. Qed.

Lemma bind_keeps_short {A B} (m : M rfile A) (k : A -> M rfile B) :
  keeps_short m -> (forall v, keeps_short (k v)) -> keeps_short (bind m k).
Proof.
  intros Hm Hk f H. rewrite bind_run. specialize (Hm f H).
  destruct (m f) as [[v|e] f1]; cbn [snd] in *; [now apply Hk | exact Hm].
Qed.

Lemma f_read_extensible (n : Z) : extensible (f_read n).
Proof.
  intros f ext v f'. unfold f_read. intros [= <- <-].
  intros Hs.
  rewrite short_read_snoc, orb_false_iff, Nat.ltb_ge, length_firstn in Hs.
  destruct Hs as [_ Hlen]. unfold extend. cbn [unread reads].
  rewrite firstn_app, skipn_app.
  replace (Z.to_nat n - length (unread f))%nat with 0%nat by lia.
  now rewrite firstn_O, skipn_O, app_nil_r.
Qed.

Lemma lift_extensible {A} (x : result A) : extensible (lift x : M rfile A).
Proof. intros f ext v f'. unfold lift. now intros [= -> <-]. Qed.

Lemma ret_extensible {A} (v : A) : extensible (ret v : M rfile A).
Proof. intros f ext w f'. unfold ret. now intros [= <- <-]. Qed.

Lemma raise_extensible {A} (e : exn) : extensible (raise e : M rfile A).
Proof. intros f ext w f'. unfold raise. discriminate. Qed.

Lemma bind_extensible {A B} (m : M rfile A) (k : A -> M rfile B) :
  extensible m -> (forall v, extensible (k v)) ->
  (forall v, keeps_short (k v)) -> extensible (bind m k).
Proof.
  intros Hm Hk Hs f ext w f'. rewrite !bind_run.
  destruct (m f) as [[v|e] f1] eqn:E; [|discriminate].
  intros Hrun Hshort.
  assert (H1 : short_read f1 = false).
  { destruct (short_read f1) eqn:E1; [|reflexivity].
    pose proof (Hs v f1 E1) as H. rewrite Hrun in H. cbn [snd] in H.
    congruence. }
  rewrite (Hm f ext v f1 E H1). now apply Hk.
Qed.

Ltac split_rgba :=
  match goal with
  | v : (Z * Z * Z * Z)%type |- _ => destruct v as [[[? ?] ?] ?]
  end.

Ltac short_keeping :=
  repeat first
    [ apply ret_keeps_short | apply raise_keeps_short
    | apply lift_keeps_short | apply f_read_keeps_short
    | apply bind_keeps_short; [|intro]
    | progress unfold read_unpack ].

Lemma read_colors_keeps_short (count : nat) (generator : CLSGenerator) :
  keeps_short (read_colors count generator).
Proof.
  revert generator.
  induction count as [|count IH]; intros generator; cbn [read_colors].
  - apply ret_keeps_short.
  - short_keeping. split_rgba. apply IH.
Qed.

Lemma read_unpack_extensible {A} (n : Z) (unpack : bytes -> result A) :
  extensible (read_unpack n unpack).
Proof.
  unfold read_unpack. apply bind_extensible.
  - apply f_read_extensible.
  - intro. apply lift_extensible.
  - intro. apply lift_keeps_short.
Qed.

Lemma read_colors_extensible (count : nat) (generator : CLSGenerator) :
  extensible (read_colors count generator).
Proof.
  revert generator.
  induction count as [|count IH]; intros generator; cbn [read_colors].
  - apply ret_extensible.
  - repeat (apply bind_extensible;
            [ apply read_unpack_extensible
            | intro
            | intro; short_keeping; split_rgba;
              apply read_colors_keeps_short ]).
    split_rgba. apply IH.
Qed.

Lemma load_cls_file_keeps_short : keeps_short load_cls_file.
Proof.
  unfold load_cls_file. apply bind_keeps_short; [apply f_read_keeps_short|].
  intros sig. destruct (negb _); [apply raise_keeps_short|]. cbv zeta.
  short_keeping. apply read_colors_keeps_short.
Qed.

Ltac extending :=
  repeat first
    [ apply read_unpack_extensible | apply f_read_extensible
    | apply bind_extensible; [| intro | intro; cbv zeta; short_keeping;
                                        try apply read_colors_keeps_short ] ].

Lemma load_cls_file_extensible : extensible load_cls_file.
Proof.
  unfold load_cls_file.
  apply bind_extensible; [apply f_read_extensible | |].
  - intros sig. destruct (negb _); [apply raise_extensible|]. cbv zeta.
    extending. apply read_colors_extensible.
  - intros sig. destruct (negb _); [apply raise_keeps_short|]. cbv zeta.
    short_keeping. apply read_colors_keeps_short.
Qed.

(** A saved file cut anywhere after its signature is refused with
    [struct.error]. *)
Lemma load_cls_truncated_file (p : CLSGenerator) (data : bytes) (k : nat) :
  is_str (name p) = true -> name_fits (name p) = true ->
  valid_palette p = true -> len (colors p) <= 357913941 ->
  encode p = Ok data ->
  (4 <= k < length data)%nat ->
  load_cls (firstn k data) = Raise StructError.
Proof.
  intros Hs Hfit Hvalid Hcount Henc Hk.
  destruct (name_fits_inv _ Hfit) as (u & Hu & Hlen).
  pose proof (utf8_encode_length _ _ Hu) as Hascii.
  rewrite <- ascii_encode_replace_length in Hascii.
  pose proof (len_nonneg (ascii_encode_replace (name p))).
  pose proof (len_nonneg u). pose proof (len_nonneg (colors p)).
  rewrite (encode_layout p u Hu Hlen Hvalid) in Henc by lia.
  apply Ok_inj in Henc.
  destruct (load_cls_file_layout
              (2 + len (ascii_encode_replace (name p)) + 4 + 2 + len u)
              (len (colors p) * 12) (ascii_encode_replace (name p)) u
              (colors p)) as [h Efull]; try assumption; try lia.
  rewrite Henc in Efull.
  assert (Hsig : firstn 4 (firstn k data) = SLCC).
  { rewrite firstn_firstn, Nat.min_l by lia. now rewrite <- Henc. }
  pose proof (load_cls_file_signed_outcome _ Hsig) as Hout.
  unfold load_cls.
  destruct (load_cls_file (open_rb (firstn k data))) as [[q|e] f'] eqn:E;
    cbn [fst snd] in *; [|now subst].
  exfalso.
  pose proof (load_cls_file_extensible _ (skipn k data) _ _ E Hout) as Hext.
  unfold extend, open_rb in Hext. cbn [unread reads] in Hext.
  rewrite firstn_skipn in Hext. unfold open_rb in Efull.
  rewrite Efull in Hext. injection Hext as _ Hnil _.
  symmetry in Hnil. apply app_eq_nil in Hnil. destruct Hnil as [_ Hnil].
  apply (f_equal (@length byte)) in Hnil. rewrite length_skipn in Hnil.
  cbn in Hnil. lia.
Qed.

(** ** Hexadecimal notation *)

Lemma hex_digit_upper (d : Z) :
  0 <= d < 16 -> hex_digit (hex_upper_digit d) = Some d.
Proof.
  intros H. unfold hex_digit, hex_upper_digit.
  destruct (Z.ltb_spec d 10).
  - destruct (Z.leb_spec 48 (48 + d)); [|lia].
    destruct (Z.leb_spec (48 + d) 57); [|lia]. cbn [andb]. f_equal. lia.
  - destruct (Z.leb_spec 48 (55 + d)); [|lia].
    destruct (Z.leb_spec (55 + d) 57); [lia|]. cbn [andb].
    destruct (Z.leb_spec 65 (55 + d)); [|lia].
    destruct (Z.leb_spec (55 + d) 70); [|lia]. cbn [andb]. f_equal. lia.
Qed.

Lemma hex_upper_fuel_value (fuel : nat) (v : Z) (acc : str) :
  0 <= v < 16 ^ Z.of_nat fuel ->
  exists nd, 0 <= nd /\
    forall a0, hex_value a0 (hex_upper_fuel fuel v acc)
               = hex_value (a0 * 16 ^ nd + v) acc.
Proof.
  revert v acc. induction fuel as [|fuel IH]; intros v acc Hv.
  - exists 0. split; [lia|]. intros a0. cbn [hex_upper_fuel].
    change (16 ^ Z.of_nat 0) with 1 in Hv. f_equal. lia.
  - rewrite Nat2Z.inj_succ, Z.pow_succ_r in Hv by lia.
    cbn [hex_upper_fuel]. cbv zeta.
    destruct (Z.eqb_spec (v / 16) 0) as [E|E].
    + exists 1. split; [lia|]. intros a0. cbn [hex_value].
      rewrite hex_digit_upper by lia. f_equal. lia.
    + destruct (IH (v / 16) (hex_upper_digit (v mod 16) :: acc)) as (nd & Hnd & H);
        [lia|].
      exists (Z.succ nd). split; [lia|]. intros a0. rewrite H.
      cbn [hex_value]. rewrite hex_digit_upper by lia.
      rewrite Z.pow_succ_r by lia. f_equal.
      pose proof (Z.div_mod v 16 ltac:(lia)) as Hdm.
      set (q := v / 16) in *. set (m := v mod 16) in *.
      set (pw := 16 ^ nd). clearbody q m pw. subst v. ring.
Qed.

(** The digits that [format(v, 'X')] writes are those of [v]: the fuel of
    [hex_upper] is enough for every [v >= 0]. *)
Lemma hex_upper_value (v : Z) : 0 <= v -> hex_value 0 (hex_upper v) = Some v.
Proof.
  intros Hv. unfold hex_upper.
  destruct (hex_upper_fuel_value (S (Z.to_nat (Z.log2 v))) v []) as (nd & _ & H).
  - split; [exact Hv|]. rewrite Nat2Z.inj_succ, Z2Nat.id by apply Z.log2_nonneg.
    destruct (Z.eq_dec v 0) as [->|Hnz]; [reflexivity|].
    pose proof (Z.log2_spec v ltac:(lia)) as [_ Hlt].
    eapply Z.lt_le_trans; [exact Hlt|].
    apply Z.pow_le_mono_l. lia.
  - rewrite H. cbn [hex_value]. f_equal; lia.
Qed.

Lemma format_02X_ubyte (v : Z) :
  0 <= v <= 255 ->
  format_02X v = [hex_upper_digit (v / 16); hex_upper_digit (v mod 16)].
Proof.
  intros Hv. unfold format_02X, hex_upper.
  destruct (Z.ltb_spec v 0); [lia|].
  destruct (Z.lt_ge_cases v 16) as [Hlo|Hhi].
  - cbn [hex_upper_fuel]. cbv zeta.
    destruct (Z.eqb_spec (v / 16) 0) as [E|E]; [|lia].
    rewrite E. reflexivity.
  - assert (Hlog : 4 <= Z.log2 v).
    { change 4 with (Z.log2 16). apply Z.log2_le_mono. lia. }
    destruct (Z.to_nat (Z.log2 v)) as [|k] eqn:Ek; [lia|].
    cbn [hex_upper_fuel]. cbv zeta.
    destruct (Z.eqb_spec (v / 16) 0) as [E|E]; [lia|].
    destruct (Z.eqb_spec (v / 16 / 16) 0) as [E'|E']; [|lia].
    replace (v / 16 mod 16) with (v / 16) by lia. reflexivity.
Qed.

Lemma hex_upper_digit_range (d : Z) :
  0 <= d < 16 ->
  48 <= hex_upper_digit d <= 57 \/ 65 <= hex_upper_digit d <= 70.
Proof. intros H. unfold hex_upper_digit. destruct (Z.ltb_spec d 10); lia. Qed.

Lemma valid_color_inv (c : CLSColor) :
  valid_color c = true ->
  0 <= r c <= 255 /\ 0 <= g c <= 255 /\ 0 <= b c <= 255 /\ 0 <= a c <= 255.
Proof.
  unfold valid_color, is_ubyte. rewrite !andb_true_iff, !Z.leb_le. tauto.
Qed.

Lemma to_hex_valid (c : CLSColor) :
  valid_color c = true ->
  to_hex c
  = [35; hex_upper_digit (r c / 16); hex_upper_digit (r c mod 16);
     hex_upper_digit (g c / 16); hex_upper_digit (g c mod 16);
     hex_upper_digit (b c / 16); hex_upper_digit (b c mod 16)].
Proof.
  intros H. apply valid_color_inv in H. unfold to_hex.
  now rewrite !format_02X_ubyte by lia.
Qed.

(** X1: the text that to_hex gives for a valid colour has seven characters:
    the number sign, then six hexadecimal digits in upper case, which read
    in pairs as numbers in base 16 are the red, green and blue channels; the
    alpha channel is not part of it. *)
Theorem X1_to_hex_notation (c : CLSColor) :
  valid_color c = true ->
  len (to_hex c) = 7 /\
  nth 0 (to_hex c) 0 = 35 /\
  forallb (fun ch => ((48 <=? ch) && (ch <=? 57)) || ((65 <=? ch) && (ch <=? 70)))
    (tl (to_hex c)) = true /\
  hex_value 0 (slice (to_hex c) 1 3) = Some (r c) /\
  hex_value 0 (slice (to_hex c) 3 5) = Some (g c) /\
  hex_value 0 (slice (to_hex c) 5 7) = Some (b c).
Proof.
  intros H. rewrite (to_hex_valid c H). apply valid_color_inv in H.
  split; [reflexivity|]. split; [reflexivity|]. split.
  - cbn [tl forallb]. rewrite !andb_true_iff, !orb_true_iff, !andb_true_iff,
      !Z.leb_le.
    pose proof (hex_upper_digit_range (r c / 16)).
    pose proof (hex_upper_digit_range (r c mod 16)).
    pose proof (hex_upper_digit_range (g c / 16)).
    pose proof (hex_upper_digit_range (g c mod 16)).
    pose proof (hex_upper_digit_range (b c / 16)).
    pose proof (hex_upper_digit_range (b c mod 16)).
    repeat split; try lia;
      match goal with
      | Hr : 0 <= ?d < 16 -> _ |- context [hex_upper_digit ?d] =>
          destruct Hr; [lia | tauto | tauto]
      end.
  - unfold slice. cbn [skipn firstn Nat.sub hex_value].
    rewrite !hex_digit_upper by lia.
    repeat split; f_equal; lia.
Qed.

Lemma X1_to_hex_notation_witness :
  let c := CLSColor_init 255 127 0 64 in
  to_hex c = str_of_string "#FF7F00" /\
  hex_value 0 (slice (to_hex c) 3 5) = Some 127.
Proof.
  intros c.
  destruct (X1_to_hex_notation c eq_refl) as (_ & _ & _ & _ & Hg & _).
  split; [reflexivity | exact Hg].
Defined.

(** ** Colours from hexadecimal text *)

Lemma add_color_from_hex_hashes (int_base16 : str -> result Z) (n : nat)
  (hex_color : str) (alpha : Z) :
  add_color_from_hex int_base16 (repeat 35 n ++ hex_color) alpha
  = add_color_from_hex int_base16 hex_color alpha.
Proof.
  unfold add_color_from_hex.
  replace (lstrip_hash (repeat 35 n ++ hex_color)) with (lstrip_hash hex_color);
    [reflexivity|].
  induction n as [|n IH]; [reflexivity | exact IH].
Qed.

Lemma hex_digit_not_hash (c x : Z) : hex_digit c = Some x -> (c =? 35) = false.
Proof.
  intros H. destruct (Z.eqb_spec c 35) as [->|]; [discriminate H | reflexivity].
Qed.

Lemma hex_digit_range (c x : Z) : hex_digit c = Some x -> 0 <= x < 16.
Proof.
  unfold hex_digit.
  repeat match goal with
         | |- context [?u <=? ?v] => destruct (Z.leb_spec u v)
         end; cbn [andb]; intros [= <-]; lia.
Qed.

Lemma int_hex_digits_reads_hex_pairs : reads_hex_pairs int_hex_digits.
Proof.
  intros c d x y Hc Hd. unfold int_hex_digits. cbn [hex_value].
  rewrite Hc, Hd. f_equal.
Qed.

Lemma CLSColor_init_ubytes (x y z w : Z) :
  0 <= x <= 255 -> 0 <= y <= 255 -> 0 <= z <= 255 ->
  CLSColor_init x y z w
  = {| r := x; g := y; b := z; a := Z.max 0 (Z.min 255 w) |}.
Proof. intros. unfold CLSColor_init. f_equal; lia. Qed.

Lemma add_color_from_hex_six (int_base16 : str -> result Z) (n : nat)
  (c1 c2 c3 c4 c5 c6 x1 x2 x3 x4 x5 x6 alpha : Z) (p : CLSGenerator) :
  reads_hex_pairs int_base16 ->
  hex_digit c1 = Some x1 -> hex_digit c2 = Some x2 ->
  hex_digit c3 = Some x3 -> hex_digit c4 = Some x4 ->
  hex_digit c5 = Some x5 -> hex_digit c6 = Some x6 ->
  add_color_from_hex int_base16 (repeat 35 n ++ [c1; c2; c3; c4; c5; c6])
    alpha p
  = (Ok tt,
     {| name := name p;
        colors := colors p
                  ++ [{| r := 16 * x1 + x2; g := 16 * x3 + x4;
                         b := 16 * x5 + x6;
                         a := Z.max 0 (Z.min 255 alpha) |}] |}).
Proof.
  intros Hint H1 H2 H3 H4 H5 H6. rewrite add_color_from_hex_hashes.
  unfold add_color_from_hex. cbn [lstrip_hash].
  rewrite (hex_digit_not_hash _ _ H1).
  change (len [c1; c2; c3; c4; c5; c6] =? 6) with true. cbv iota.
  unfold slice. cbn [skipn firstn Nat.sub].
  rewrite (Hint _ _ _ _ H1 H2), (Hint _ _ _ _ H3 H4), (Hint _ _ _ _ H5 H6).
  cbv beta iota delta [bind lift add_color]. cbv zeta.
  apply hex_digit_range in H1, H2, H3, H4, H5, H6.
  now rewrite CLSColor_init_ubytes by lia.
Qed.

(** X2: for a text of six hexadecimal digits, in either case and after any
    number of leading number signs, add_color_from_hex returns normally and
    appends one colour: red, green and blue are the values of the three
    pairs of digits, unclamped, and alpha is the clamped alpha argument; the
    name and the colours already there are kept. *)
Theorem X2_hex_six_digits (int_base16 : str -> result Z) (n : nat)
  (c1 c2 c3 c4 c5 c6 x1 x2 x3 x4 x5 x6 alpha : Z) (p : CLSGenerator) :
  reads_hex_pairs int_base16 ->
  hex_digit c1 = Some x1 -> hex_digit c2 = Some x2 ->
  hex_digit c3 = Some x3 -> hex_digit c4 = Some x4 ->
  hex_digit c5 = Some x5 -> hex_digit c6 = Some x6 ->
  add_color_from_hex int_base16 (repeat 35 n ++ [c1; c2; c3; c4; c5; c6])
    alpha p
  = (Ok tt,
     {| name := name p;
        colors := colors p
                  ++ [{| r := 16 * x1 + x2; g := 16 * x3 + x4;
                         b := 16 * x5 + x6;
                         a := Z.max 0 (Z.min 255 alpha) |}] |}).
Proof.
  intros Hint H1 H2 H3 H4 H5 H6. now apply add_color_from_hex_six.
Qed.

Lemma X2_hex_six_digits_witness :
  add_color_from_hex int_hex_digits (str_of_string "#FFb3Ba") 300
    (CLSGenerator_init (str_of_string "Pastel Dreams"))
  = (Ok tt,
     {| name := str_of_string "Pastel Dreams";
        colors := [{| r := 255; g := 179; b := 186; a := 255 |}] |}).
Proof.
  exact (X2_hex_six_digits int_hex_digits 1 70 70 98 51 66 97
           15 15 11 3 11 10 300
           (CLSGenerator_init (str_of_string "Pastel Dreams"))
           int_hex_digits_reads_hex_pairs
           eq_refl eq_refl eq_refl eq_refl eq_refl eq_refl).
Defined.

(** X3: for a text of eight hexadecimal digits (after any number of
    leading number signs), add_color_from_hex appends the colour whose four
    channels are the values of the four pairs of digits: the alpha argument
    of the call is not used. *)
Theorem X3_hex_eight_digits (int_base16 : str -> result Z) (n : nat)
  (c1 c2 c3 c4 c5 c6 c7 c8 x1 x2 x3 x4 x5 x6 x7 x8 alpha : Z)
  (p : CLSGenerator) :
  reads_hex_pairs int_base16 ->
  hex_digit c1 = Some x1 -> hex_digit c2 = Some x2 ->
  hex_digit c3 = Some x3 -> hex_digit c4 = Some x4 ->
  hex_digit c5 = Some x5 -> hex_digit c6 = Some x6 ->
  hex_digit c7 = Some x7 -> hex_digit c8 = Some x8 ->
  add_color_from_hex int_base16
    (repeat 35 n ++ [c1; c2; c3; c4; c5; c6; c7; c8]) alpha p
  = (Ok tt,
     {| name := name p;
        colors := colors p
                  ++ [{| r := 16 * x1 + x2; g := 16 * x3 + x4;
                         b := 16 * x5 + x6; a := 16 * x7 + x8 |}] |}).
Proof.
  intros Hint H1 H2 H3 H4 H5 H6 H7 H8. rewrite add_color_from_hex_hashes.
  unfold add_color_from_hex. cbn [lstrip_hash].
  rewrite (hex_digit_not_hash _ _ H1).
  change (len [c1; c2; c3; c4; c5; c6; c7; c8] =? 6) with false.
  change (len [c1; c2; c3; c4; c5; c6; c7; c8] =? 8) with true. cbv iota.
  unfold slice. cbn [skipn firstn Nat.sub].
  rewrite (Hint _ _ _ _ H1 H2), (Hint _ _ _ _ H3 H4), (Hint _ _ _ _ H5 H6),
    (Hint _ _ _ _ H7 H8).
  cbv beta iota delta [bind lift add_color]. cbv zeta.
  apply hex_digit_range in H1, H2, H3, H4, H5, H6, H7, H8.
  rewrite CLSColor_init_ubytes by lia.
  now replace (Z.max 0 (Z.min 255 (16 * x7 + x8))) with (16 * x7 + x8) by lia.
Qed.

Lemma X3_hex_eight_digits_witness :
  add_color_from_hex int_hex_digits (str_of_string "##0a141E28") 255
    (CLSGenerator_init (str_of_string "P"))
  = (Ok tt,
     {| name := str_of_string "P";
        colors := [{| r := 10; g := 20; b := 30; a := 40 |}] |}).
Proof.
  exact (X3_hex_eight_digits int_hex_digits 2 48 97 49 52 49 69 50 56
           0 10 1 4 1 14 2 8 255 (CLSGenerator_init (str_of_string "P"))
           int_hex_digits_reads_hex_pairs
           eq_refl eq_refl eq_refl eq_refl eq_refl eq_refl eq_refl eq_refl).
Defined.

(** X4: when add_color_from_hex raises (int refuses one of the pairs), the
    palette is left as it was: no colour is appended; whatever int does. *)
Theorem X4_hex_failure_keeps_palette (int_base16 : str -> result Z)
  (hex_color : str) (alpha : Z) (p : CLSGenerator) (e : exn) :
  fst (add_color_from_hex int_base16 hex_color alpha p) = Raise e ->
  snd (add_color_from_hex int_base16 hex_color alpha p) = p.
Proof.
  unfold add_color_from_hex.
  destruct (len (lstrip_hash hex_color) =? 6);
    [|destruct (len (lstrip_hash hex_color) =? 8)];
    rewrite ?bind_run; unfold lift, ret;
    repeat (match goal with
            | |- context [int_base16 ?s] => destruct (int_base16 s)
            end; rewrite ?bind_run; cbn [fst snd]);
    try discriminate; reflexivity.
Qed.

Lemma X4_hex_failure_keeps_palette_witness :
  let p := add_color 1 2 3 255 (CLSGenerator_init (str_of_string "P")) in
  snd (add_color_from_hex int_hex_digits (str_of_string "#FF00ZZ") 255 p) = p.
Proof.
  intros p.
  apply (X4_hex_failure_keeps_palette int_hex_digits _ _ _
           (ValueError "invalid literal for int() with base 16")).
  reflexivity.
Defined.

(** X5: to_hex and add_color_from_hex fit together: for a valid colour c,
    add_color_from_hex(c.to_hex(), c.a) appends exactly c. *)
Theorem X5_to_hex_round_trip (int_base16 : str -> result Z) (c : CLSColor)
  (p : CLSGenerator) :
  reads_hex_pairs int_base16 ->
  valid_color c = true ->
  add_color_from_hex int_base16 (to_hex c) (a c) p
  = (Ok tt, {| name := name p; colors := colors p ++ [c] |}).
Proof.
  intros Hint Hc. rewrite (to_hex_valid c Hc).
  pose proof (valid_color_inv c Hc) as (Hr & Hg & Hb & Ha).
  match goal with
  | |- context [add_color_from_hex _ (35 :: ?l)] =>
      change (35 :: l) with (repeat 35 1 ++ l)
  end.
  rewrite (add_color_from_hex_six int_base16 1 _ _ _ _ _ _
             (r c / 16) (r c mod 16) (g c / 16) (g c mod 16)
             (b c / 16) (b c mod 16) (a c) p Hint);
    try (apply hex_digit_upper; lia).
  destruct c as [x y z w]; cbn [r g b a] in *. do 4 f_equal. f_equal; lia.
Qed.

Lemma X5_to_hex_round_trip_witness :
  let c := CLSColor_init 75 0 130 0 in
  add_color_from_hex int_hex_digits (to_hex c) (a c)
    (CLSGenerator_init (str_of_string "Rainbow"))
  = (Ok tt, {| name := str_of_string "Rainbow"; colors := [c] |}).
Proof.
  intros c.
  exact (X5_to_hex_round_trip int_hex_digits c
           (CLSGenerator_init (str_of_string "Rainbow"))
           int_hex_digits_reads_hex_pairs eq_refl).
Defined.

(** ** Lists of colours *)

(** X6: add_colors_from_list appends the colours of the list in their
    order, each clamped and opaque (alpha 255), after the colours already
    there, and keeps the name; adding a list in two parts is adding the
    whole list. *)
Theorem X6_add_colors_from_list (cs cs' : list (Z * Z * Z))
  (p : CLSGenerator) :
  add_colors_from_list cs p
  = {| name := name p;
       colors := colors p
                 ++ map (fun '(x, y, z) => CLSColor_init x y z 255) cs |}
  /\ add_colors_from_list (cs ++ cs') p
     = add_colors_from_list cs' (add_colors_from_list cs p).
Proof.
  split.
  - revert p. induction cs as [|[[x y] z] cs IH]; intros p.
    + cbn. rewrite app_nil_r. now destruct p.
    + cbn [add_colors_from_list map]. rewrite IH. unfold add_color.
      cbn [name colors]. now rewrite <- app_assoc.
  - revert p. induction cs as [|[[x y] z] cs IH]; intros p; [reflexivity|].
    cbn [app add_colors_from_list]. apply IH.
Qed.

(** ** The two name fields *)





Lemma color_blocks_length (cs : list CLSColor) :
  len (color_blocks cs) = 12 * len cs.
Proof.
  induction cs as [|c cs IH]; [reflexivity|].
  rewrite color_blocks_cons, len_app, IH. unfold len. cbn [length app le32].
  lia.
Qed.

(** X8: the file that save writes has 30 bytes of fixed fields, one byte
    for every character of the name, the bytes of the UTF-8 text of the name,
    and 12 bytes for every colour. *)
Theorem X8_file_size (p : CLSGenerator) (data : bytes) :
  encode p = Ok data ->
  exists utf8_name,
    utf8_encode (name p) = Ok utf8_name /\
    len data = 30 + len (name p) + len utf8_name + 12 * len (colors p).
Proof.
  intros Henc.
  destruct (proj1 (encode_succeeds_iff p) (ex_intro _ data Henc))
    as (Hfit & Hvalid & Hcount).
  destruct (name_fits_inv _ Hfit) as (u & Hu & Hlen).
  rewrite (encode_layout p u Hu Hlen Hvalid) in Henc by lia.
  apply Ok_inj in Henc. subst data. exists u. split; [exact Hu|].
  unfold layout. rewrite !len_app, color_blocks_length.
  rewrite ascii_encode_replace_length. unfold len. cbn [length SLCC le16 le32].
  lia.
Qed.

Lemma X8_file_size_witness :
  exists utf8_name,
    utf8_encode [28779; 23665] = Ok utf8_name /\
    len [x53; x4c; x43; x43; x00; x01; x10; x00; x00; x00; x02; x00;
         x3f; x3f; x00; x00; x00; x00; x06; x00;
         xe7; x81; xab; xe5; xb1; xb1; x04; x00; x00; x00;
         x01; x00; x00; x00; x0c; x00; x00; x00;
         x08; x00; x00; x00; xff; x00; x07; xff; x00; x00; x00; x00]
    = 30 + len [28779; 23665] + len utf8_name + 12 * 1.
Proof.
  exact (X8_file_size
           (add_color 300 (-5) 7 255 (CLSGenerator_init [28779; 23665]))
           _ eq_refl).
Defined.

(** ** What load_cls accepts *)

Lemma load_cls_wrong_signature (data : bytes) :
  firstn 4 data <> SLCC ->
  load_cls data = Raise (ValueError "Invalid .cls file: wrong signature").
Proof.
  intros Hsig. unfold load_cls, load_cls_file.
  rewrite bind_run. unfold f_read at 1, open_rb. cbn [unread].
  change (Z.to_nat 4) with 4%nat.
  destruct (bytes_eqb (firstn 4 data) SLCC) eqn:E.
  - apply bytes_eqb_eq in E. contradiction.
  - reflexivity.
Qed.

Lemma load_cls_Ok_signed (data : bytes) (q : CLSGenerator) :
  load_cls data = Ok q -> firstn 4 data = SLCC.
Proof.
  intros H. destruct (bytes_eqb (firstn 4 data) SLCC) eqn:E.
  - now apply bytes_eqb_eq.
  - rewrite load_cls_wrong_signature in H; [discriminate|].
    intros Heq. apply bytes_eqb_eq in Heq. congruence.
Qed.

(** X9: bytes after the last colour are not looked at: a buffer that
    load_cls accepts is accepted with the same palette when anything is
    appended to it. *)
Theorem X9_trailing_bytes_ignored (data ext : bytes) (q : CLSGenerator) :
  load_cls data = Ok q -> load_cls (data ++ ext) = Ok q.
Proof.
  intros H. pose proof (load_cls_Ok_signed data q H) as Hsig.
  pose proof (load_cls_file_signed_outcome data Hsig) as Hout.
  unfold load_cls in *.
  destruct (load_cls_file (open_rb data)) as [res f'] eqn:E.
  cbn [fst snd] in *. subst res.
  pose proof (load_cls_file_extensible _ ext _ _ E Hout) as Hext.
  change (extend (open_rb data) ext) with (open_rb (data ++ ext)) in Hext.
  now rewrite Hext.
Qed.

Lemma X9_trailing_bytes_ignored_witness :
  load_cls ([x53; x4c; x43; x43; x00; x01; x09; x00; x00; x00;
             x01; x00; x50; x00; x00; x00; x00; x01; x00; x50;
             x04; x00; x00; x00; x00; x00; x00; x00; x00; x00; x00; x00]
            ++ [xde; xad; xbe; xef])
  = Ok (CLSGenerator_init (str_of_string "P")).
Proof.
  apply X9_trailing_bytes_ignored. reflexivity.
Defined.


Lemma raw_blocks_cons (blk : raw_block) (blocks : list raw_block) :
  flat_map raw_block_bytes (blk :: blocks)
  = raw_block_bytes blk ++ flat_map raw_block_bytes blocks.
Proof. reflexivity. Qed.

Lemma unpack_I_four (d : bytes) :
  length d = 4%nat -> exists v, unpack_I d = Ok v.
Proof.
  destruct d as [|b0 [|b1 [|b2 [|b3 [|? ?]]]]]; try discriminate.
  intros _. cbn [unpack_I]. eauto.
Qed.

Lemma read_colors_raw_blocks (blocks : list raw_block) (p : CLSGenerator)
  (rest : bytes) (h : list (nat * nat)) :
  forallb raw_block_ok blocks = true ->
  exists h',
    read_colors (length blocks) p
      {| unread := flat_map raw_block_bytes blocks ++ rest; reads := h |}
    = (Ok {| name := name p;
             colors := colors p ++ map raw_block_color blocks |},
       {| unread := rest; reads := h' |}).
Proof.
  revert p h. induction blocks as [|blk blocks IH]; intros p h; cbn [forallb].
  - intros _. eexists. cbn. rewrite app_nil_r. now destruct p.
  - intros H. apply andb_true_iff in H. destruct H as [Hb Hbs].
    destruct blk as [[bl [[[x y] z] w]] tz]. cbn [raw_block_ok] in Hb.
    apply andb_true_iff in Hb. destruct Hb as [Hbl Htz].
    apply Nat.eqb_eq in Hbl, Htz.
    destruct (unpack_I_four bl Hbl) as [v1 E1].
    destruct (unpack_I_four tz Htz) as [v3 E3].
    cbn [length read_colors]. rewrite raw_blocks_cons.
    cbn [raw_block_bytes]. rewrite <- !app_assoc.
    rewrite bind_run, read_unpack_exact by (unfold len; lia). rewrite E1.
    rewrite bind_run, (read_unpack_exact 4 unpack_BBBB [x; y; z; w])
      by reflexivity.
    cbn [unpack_BBBB].
    rewrite bind_run, read_unpack_exact by (unfold len; lia). rewrite E3.
    cbv beta iota.
    match goal with
    | |- context [read_colors _ _ {| unread := _; reads := ?hh |}] =>
        destruct (IH (add_color (byte_to_Z x) (byte_to_Z y) (byte_to_Z z)
                        (byte_to_Z w) p) hh Hbs) as [h' Eh']
    end.
    exists h'. rewrite Eh'. unfold add_color. cbn [name colors map].
    pose proof (byte_to_Z_range x). pose proof (byte_to_Z_range y).
    pose proof (byte_to_Z_range z). pose proof (byte_to_Z_range w).
    rewrite CLSColor_init_ubytes by lia.
    replace (Z.max 0 (Z.min 255 (byte_to_Z w))) with (byte_to_Z w) by lia.
    cbn [raw_block_color]. now rewrite <- app_assoc.
Qed.

(** X11: load_cls reads without looking at them the version, the header
    length, the reserved word, the channel count, the length of the colours
    section, and in every colour block the block length and the trailing
    word: on a complete buffer, whatever these bytes are, the palette has
    the name of the name fields and one colour for every block, with the
    four channel bytes of the block, in the order of the file. *)
Theorem X11_unchecked_fields (version header_length ascii_name reserved
    utf8_name channels section_length rest : bytes)
  (blocks : list raw_block) :
  length version = 2%nat -> length header_length = 4%nat ->
  length reserved = 4%nat ->
  len ascii_name <= 65535 -> len utf8_name <= 65535 ->
  length channels = 4%nat -> length section_length = 4%nat ->
  len blocks <= 4294967295 ->
  forallb raw_block_ok blocks = true ->
  load_cls (SLCC ++ version ++ header_length
            ++ le16 (len ascii_name) ++ ascii_name ++ reserved
            ++ le16 (len utf8_name) ++ utf8_name
            ++ channels ++ le32 (len blocks) ++ section_length
            ++ flat_map raw_block_bytes blocks ++ rest)
  = Ok {| name := match utf8_decode_replace utf8_name with
                  | [] => ascii_decode_replace ascii_name
                  | _ :: _ => utf8_decode_replace utf8_name
                  end;
          colors := map raw_block_color blocks |}.
Proof.
  intros Hv Hh Hr Ha Hu Hc Hs Hn Hb. pose proof (len_nonneg blocks).
  destruct (load_cls_file_header version header_length ascii_name reserved
              utf8_name
              (channels ++ le32 (len blocks) ++ section_length
               ++ flat_map raw_block_bytes blocks ++ rest)
              Hv Hh Hr Ha Hu) as [h Eh].
  unfold load_cls. rewrite Eh. unfold load_colors_section.
  destruct (unpack_I_four channels Hc) as [v1 E1].
  destruct (unpack_I_four section_length Hs) as [v3 E3].
  rewrite bind_run, read_unpack_exact by (unfold len; lia). rewrite E1.
  rewrite bind_run, read_unpack_exact by reflexivity.
  rewrite unpack_I_le32 by lia.
  rewrite bind_run, read_unpack_exact by (unfold len; lia). rewrite E3.
  unfold len. rewrite Nat2Z.id.
  match goal with
  | |- context [read_colors _ ?g {| unread := _; reads := ?hh |}] =>
      destruct (read_colors_raw_blocks blocks g rest hh Hb) as [h' Eh']
  end.
  rewrite Eh'. reflexivity.
Qed.

Lemma X11_unchecked_fields_witness :
  load_cls ([x53; x4c; x43; x43] ++ [x09; x09] ++ [xff; xff; xff; xff]
            ++ [x01; x00] ++ [x50] ++ [x01; x02; x03; x04]
            ++ [x00; x00] ++ []
            ++ [x07; x00; x00; x00] ++ [x01; x00; x00; x00]
            ++ [x00; x00; x00; x00]
            ++ [x63; x00; x00; x00; x0a; x14; x1e; x28; xaa; xbb; xcc; xdd]
            ++ [x00])
  = Ok {| name := str_of_string "P";
          colors := [{| r := 10; g := 20; b := 30; a := 40 |}] |}.
Proof.
  exact (X11_unchecked_fields [x09; x09] [xff; xff; xff; xff] [x50]
           [x01; x02; x03; x04] [] [x07; x00; x00; x00]
           [x00; x00; x00; x00] [x00]
           [([x63; x00; x00; x00], (x0a, x14, x1e, x28),
             [xaa; xbb; xcc; xdd])]
           eq_refl eq_refl eq_refl ltac:(vm_compute; discriminate)
           ltac:(vm_compute; discriminate) eq_refl eq_refl
           ltac:(vm_compute; discriminate) eq_refl).
Defined.

(** ** The name of a loaded palette *)

Lemma is_scalar_intro (c : Z) :
  0 <= c <= 1114111 -> c < 55296 \/ 57343 < c -> is_scalar c = true.
Proof.
  intros Hr Hs. unfold is_scalar, is_codepoint, is_surrogate.
  destruct (Z.leb_spec 0 c); [|lia].
  destruct (Z.leb_spec c 1114111); [|lia].
  destruct (Z.leb_spec 55296 c); destruct (Z.leb_spec c 57343);
    cbn [andb negb]; try reflexivity; lia.
Qed.

Ltac split_tests :=
  repeat match goal with
         | |- context [?x <? ?y] => destruct (Z.ltb_spec x y)
         | |- context [?x <=? ?y] => destruct (Z.leb_spec x y)
         | |- context [?x =? ?y] => destruct (Z.eqb_spec x y)
         | |- context [match ?l with [] => _ | _ :: _ => _ end] =>
             destruct l
         end; cbn [negb andb orb].

Lemma utf8_decode_replace_scalar (data : bytes) :
  forallb is_scalar (utf8_decode_replace data) = true.
Proof.
  remember (length data) as n eqn:Hn.
  assert (Hle : (length data <= n)%nat) by lia. clear Hn.
  revert data Hle. induction n as [|n IH]; intros data Hle.
  - destruct data; [reflexivity | cbn [length] in Hle; lia].
  - destruct data as [|b0 t1]; [reflexivity|].
    cbn [length] in Hle. rewrite utf8_decode_replace_cons. cbv zeta.
    unfold is_cont.
    pose proof (byte_to_Z_range b0).
    destruct t1 as [|b1 [|b2 [|b3 t4]]];
      try pose proof (byte_to_Z_range b1);
      try pose proof (byte_to_Z_range b2);
      try pose proof (byte_to_Z_range b3);
      cbn [length] in Hle;
      split_tests; cbn [forallb];
      rewrite ?andb_true_iff; repeat split;
      try reflexivity;
      try (apply IH; cbn [length]; lia);
      try (apply is_scalar_intro; lia).
Qed.

Lemma ascii_decode_replace_scalar (data : bytes) :
  forallb is_scalar (ascii_decode_replace data) = true.
Proof.
  induction data as [|x data IH]; [reflexivity|].
  cbn [ascii_decode_replace map forallb]. fold (ascii_decode_replace data).
  rewrite IH, andb_true_r. pose proof (byte_to_Z_range x).
  destruct (Z.ltb_spec (byte_to_Z x) 128); [|reflexivity].
  apply is_scalar_intro; lia.
Qed.

Lemma load_cls_name (data : bytes) (q : CLSGenerator) :
  load_cls data = Ok q ->
  exists ascii_name utf8_name,
    name q = preferred_name (utf8_decode_replace utf8_name)
               (ascii_decode_replace ascii_name).
Proof.
  intros Hload.
  destruct (load_cls_header_shape data q Hload)
    as (version & header_length & ascii_name & reserved & utf8_name & rest
        & Hv & Hh & Hr & Ha & Hu & ->).
  exists ascii_name, utf8_name.
  destruct (load_cls_file_header version header_length ascii_name reserved
              utf8_name rest Hv Hh Hr Ha Hu) as [h Eh].
  unfold load_cls in Hload. rewrite Eh in Hload.
  destruct (load_colors_section _ _) as [res f'] eqn:E.
  cbn [fst] in Hload. subst res.
  apply load_colors_section_name in E. exact E.
Qed.

Lemma load_cls_name_scalar (data : bytes) (q : CLSGenerator) :
  load_cls data = Ok q -> forallb is_scalar (name q) = true.
Proof.
  intros H. destruct (load_cls_name data q H) as (an & un & ->).
  unfold preferred_name.
  destruct (utf8_decode_replace un) eqn:E.
  - apply ascii_decode_replace_scalar.
  - rewrite <- E. apply utf8_decode_replace_scalar.
Qed.

Lemma utf8_encode_scalar (s : str) :
  forallb is_scalar s = true -> exists u, utf8_encode s = Ok u.
Proof.
  induction s as [|c s IH]; cbn [forallb utf8_encode]; [eauto|].
  rewrite andb_true_iff. intros [Hc Hs]. destruct (IH Hs) as [u ->].
  unfold is_scalar in Hc. apply andb_true_iff in Hc. destruct Hc as [_ Hc].
  unfold utf8_encode_cp.
  destruct (is_surrogate c); [discriminate Hc|].
  repeat match goal with
         | |- context [if ?t then _ else _] => destruct t
         end; eauto.
Qed.

Lemma is_scalar_is_str (s : str) :
  forallb is_scalar s = true -> is_str s = true.
Proof.
  unfold is_str. rewrite !forallb_forall. intros H c Hin.
  specialize (H c Hin). unfold is_scalar in H.
  now apply andb_true_iff in H.
Qed.

(** X12: the name of every palette that load_cls returns is made of
    Unicode scalar values: no lone surrogate, nothing above U+10FFFF,
    whatever bytes the name fields hold; so name.encode('utf-8'), which save
    calls, does not raise on it. *)
Theorem X12_loaded_name_scalar (data : bytes) (q : CLSGenerator) :
  load_cls data = Ok q ->
  forallb is_scalar (name q) = true /\
  exists utf8_name, utf8_encode (name q) = Ok utf8_name.
Proof.
  intros H. pose proof (load_cls_name_scalar data q H) as Hs.
  split; [exact Hs | now apply utf8_encode_scalar].
Qed.

Lemma X12_loaded_name_scalar_witness :
  forallb is_scalar
    [65533; 65533; 65533; 65]
  = true.
Proof.
  exact (proj1 (X12_loaded_name_scalar
                  [x53; x4c; x43; x43; x00; x01; x09; x00; x00; x00;
                   x00; x00; x00; x00; x00; x00; x04; x00;
                   xed; xa0; x80; x41;
                   x04; x00; x00; x00; x00; x00; x00; x00;
                   x00; x00; x00; x00]
                  (CLSGenerator_init [65533; 65533; 65533; 65])
                  eq_refl)).
Defined.

(** X13: a palette that load_cls returned can be saved again when the
    UTF-8 text of its name has at most 65535 bytes and it has at most
    357,913,941 colours, and loading the new file gives the same palette. *)
Theorem X13_save_after_load (data : bytes) (q : CLSGenerator) :
  load_cls data = Ok q ->
  name_fits (name q) = true ->
  len (colors q) <= 357913941 ->
  exists data', encode q = Ok data' /\ load_cls data' = Ok q.
Proof.
  intros Hload Hfit Hcount.
  destruct (load_encode q) as (u & _ & Henc & Hload'); try assumption.
  - apply is_scalar_is_str. eapply load_cls_name_scalar; eassumption.
  - eapply load_cls_valid; eassumption.
  - eauto.
Qed.

Lemma X13_save_after_load_witness :
  let q := {| name := str_of_string "P";
              colors := [{| r := 10; g := 20; b := 30; a := 40 |}] |} in
  exists data', encode q = Ok data' /\ load_cls data' = Ok q.
Proof.
  intros q.
  apply (X13_save_after_load
           ([x53; x4c; x43; x43] ++ [x09; x09] ++ [xff; xff; xff; xff]
            ++ [x01; x00] ++ [x50] ++ [x01; x02; x03; x04]
            ++ [x00; x00] ++ []
            ++ [x07; x00; x00; x00] ++ [x01; x00; x00; x00]
            ++ [x00; x00; x00; x00]
            ++ [x63; x00; x00; x00; x0a; x14; x1e; x28; xaa; xbb; xcc; xdd]
            ++ [x00]));
    [reflexivity | reflexivity | vm_compute; discriminate].
Defined.

(** X14: save is injective: two palettes (with names that are texts) whose
    saved files are equal have the same name and the same colours. *)
Theorem X14_encode_injective (p1 p2 : CLSGenerator) (data : bytes) :
  is_str (name p1) = true -> is_str (name p2) = true ->
  encode p1 = Ok data -> encode p2 = Ok data -> p1 = p2.
Proof.
  intros Hs1 Hs2 H1 H2.
  destruct (proj1 (encode_succeeds_iff p1) (ex_intro _ data H1))
    as (Hf1 & Hv1 & Hc1).
  destruct (proj1 (encode_succeeds_iff p2) (ex_intro _ data H2))
    as (Hf2 & Hv2 & Hc2).
  destruct (load_encode p1 Hs1 Hf1 Hv1 Hc1) as (u1 & _ & E1 & L1).
  destruct (load_encode p2 Hs2 Hf2 Hv2 Hc2) as (u2 & _ & E2 & L2).
  rewrite H1 in E1. rewrite H2 in E2.
  apply Ok_inj in E1, E2. rewrite <- E1 in L1. rewrite <- E2 in L2.
  congruence.
Qed.

Lemma X14_encode_injective_witness :
  add_color 300 0 0 255 (CLSGenerator_init (str_of_string "P"))
  = add_color 255 (-1) 0 999 (CLSGenerator_init (str_of_string "P")).
Proof.
  apply (X14_encode_injective _ _
           [x53; x4c; x43; x43; x00; x01; x0a; x00; x00; x00;
            x01; x00; x50; x00; x00; x00; x00; x01; x00; x50;
            x04; x00; x00; x00; x01; x00; x00; x00; x0c; x00; x00; x00;
            x08; x00; x00; x00; xff; x00; x00; xff; x00; x00; x00; x00]);
    reflexivity.
Defined.

(** ** The file that a failed save leaves *)



















(** ** When save returns, and cut files *)


(** X17: a file that save wrote, cut at any length that keeps the
    signature and drops at least one byte, is refused by load_cls with
    struct.error. *)
Theorem X17_cut_file_refused (p : CLSGenerator) (data : bytes) (k : nat) :
  is_str (name p) = true ->
  encode p = Ok data ->
  (4 <= k < length data)%nat ->
  load_cls (firstn k data) = Raise StructError.
Proof.
  intros Hs Henc Hk.
  destruct (proj1 (encode_succeeds_iff p) (ex_intro _ data Henc))
    as (Hfit & Hvalid & Hcount).
  now apply (load_cls_truncated_file p data k).
Qed.

Lemma X17_cut_file_refused_witness :
  load_cls
    (firstn 43
       [x53; x4c; x43; x43; x00; x01; x0a; x00; x00; x00;
        x01; x00; x50; x00; x00; x00; x00; x01; x00; x50;
        x04; x00; x00; x00; x01; x00; x00; x00; x0c; x00; x00; x00;
        x08; x00; x00; x00; xff; x00; x00; xff; x00; x00; x00; x00])
  = Raise StructError.
Proof.
  apply (X17_cut_file_refused
           (add_color 300 0 0 255 (CLSGenerator_init (str_of_string "P"))));
    [reflexivity | reflexivity | cbn; lia].
Defined.
